(** * CleanSweep: the feature-flag cleanup of [ld_flag_cleanup.py]

    A shallow embedding of the detection-and-rewrite engine:
    - Python [str] values are lists of code points (restricted to
      U+0000..U+00FF, one [ascii] each); a text split by
      [splitlines(keepends=True)] is a list of such lines;
    - Python integers are [Z]; list indexing and slicing follow Python's
      rules (negative indices count from the end, slices clamp);
    - an exception raised inside a [try] block is [None] in the [option]
      monad, caught where the source catches it;
    - the syntax tree produced by [ast.parse] is an inductive type carrying
      the fields the collector reads ([lineno], [end_lineno], [test], [body],
      [orelse]); the parser itself is external and is a parameter. *)

From Stdlib Require Import Ascii String ZArith Lia Bool Arith List.
Import ListNotations.

Set Implicit Arguments.
#[local] Set Warnings "-register-all".

(* ================================================================== *)
(** ** Python strings *)
(* ================================================================== *)

Module PyStr.

(** A Python [str]: the sequence of its code points. *)
Definition str := list ascii.

(** String literals of this development. *)
Definition lit (s : string) : str := list_ascii_of_string s.

Definition code (c : ascii) : N := N_of_ascii c.

(** [str.isspace] on one code point below U+0100: the characters
    [\t \n \v \f \r], the separators U+001C..U+001F, the space, U+0085
    and U+00A0.  [\s] of the [re] module uses the same class. *)
Definition isspace (c : ascii) : bool :=
  let n := code c in
  ((9 <=? n) && (n <=? 13) || (28 <=? n) && (n <=? 32)
   || (n =? 133) || (n =? 160))%N.

Definition newline : ascii := ascii_of_N 10.
Definition carriage_return : ascii := ascii_of_N 13.

(** [s.lstrip()] *)
Fixpoint lstrip (s : str) : str :=
  match s with
  | [] => []
  | c :: rest => if isspace c then lstrip rest else s
  end.

(** [s.rstrip()] *)
Definition rstrip (s : str) : str := rev (lstrip (rev s)).

(** [s.strip()] *)
Definition strip (s : str) : str := rstrip (lstrip s).

(** Truth value of a string in a condition: non-empty. *)
Definition truthy (s : str) : bool :=
  match s with [] => false | _ :: _ => true end.

Fixpoint eqb (a b : str) : bool :=
  match a, b with
  | [], [] => true
  | x :: a', y :: b' => Ascii.eqb x y && eqb a' b'
  | _, _ => false
  end.

(** [s.startswith(p)] *)
Fixpoint startswith (p s : str) : bool :=
  match p, s with
  | [], _ => true
  | x :: p', y :: s' => Ascii.eqb x y && startswith p' s'
  | _ :: _, [] => false
  end.

(** [p in s] *)
Fixpoint contains (p s : str) : bool :=
  startswith p s ||
  match s with
  | [] => false
  | _ :: s' => contains p s'
  end.

(** [s.count(c)] for a one-character [c] *)
Definition count (c : ascii) (s : str) : Z :=
  Z.of_nat (length (filter (Ascii.eqb c) s)).

(** [s.replace(c, '')] for a one-character [c] *)
Definition remove_char (c : ascii) (s : str) : str :=
  filter (fun x => negb (Ascii.eqb c x)) s.

(** [''.join(parts)] *)
Definition join (parts : list str) : str := concat parts.

(** A line boundary of [str.splitlines] below U+0100. *)
Definition is_linebreak (c : ascii) : bool :=
  let n := code c in
  ((10 <=? n) && (n <=? 13) || (28 <=? n) && (n <=? 30) || (n =? 133))%N.

(** [s.splitlines(keepends=True)]: every line keeps its terminator,
    [\r\n] is one terminator, and a final line without terminator is a
    line when it is not empty. *)
Fixpoint splitlines (s : str) : list str :=
  match s with
  | [] => []
  | c :: rest =>
      if is_linebreak c then
        match rest with
        | d :: rest' =>
            if Ascii.eqb c carriage_return && Ascii.eqb d newline
            then [c; d] :: splitlines rest'
            else [c] :: splitlines rest
        | [] => [[c]]
        end
      else
        match splitlines rest with
        | [] => [[c]]
        | l :: ls => (c :: l) :: ls
        end
  end.

End PyStr.

Import PyStr.

(* ================================================================== *)
(** ** Python lists: indexing and slicing *)
(* ================================================================== *)

Module PyList.
Section Ops.
Variable A : Type.

Definition len (l : list A) : Z := Z.of_nat (length l).

(** [l[i]]: [None] stands for IndexError. *)
Definition index (l : list A) (i : Z) : option A :=
  let j := if (i <? 0)%Z then (i + len l)%Z else i in
  if (j <? 0)%Z then None else nth_error l (Z.to_nat j).

(** The bound of a slice, as [PySlice_AdjustIndices] computes it. *)
Definition clamp (l : list A) (i : Z) : Z :=
  if (i <? 0)%Z then Z.max (i + len l) 0 else Z.min i (len l).

(** [l[a:b]] *)
Definition getslice (l : list A) (a b : Z) : list A :=
  let lo := clamp l a in
  let hi := clamp l b in
  firstn (Z.to_nat (hi - lo)) (skipn (Z.to_nat lo) l).

(** [l[a:b] = v]: when the upper bound lies below the lower one the
    new items are inserted at the lower bound. *)
Definition setslice (l : list A) (a b : Z) (v : list A) : list A :=
  let lo := clamp l a in
  let hi := Z.max (clamp l b) lo in
  firstn (Z.to_nat lo) l ++ v ++ skipn (Z.to_nat hi) l.
End Ops.
End PyList.

(* ================================================================== *)
(** ** The Indentation Normalizer *)
(* ================================================================== *)

(** [get_indent]: [line[:len(line) - len(line.lstrip())]] *)
Definition get_indent (line : str) : str :=
  firstn (length line - length (lstrip line)) line.

(** [adjust_indentation] *)
Definition adjust_indentation (lines : list str) (target_indent : str)
  : list str :=
  match lines with
  | [] => lines
  | _ :: _ =>
      let non_empty_lines := filter (fun line => truthy (strip line)) lines in
      match non_empty_lines with
      | [] => lines
      | first :: _ =>
          let current_indent := get_indent first in
          let min_indent_length := length current_indent in
          if PyStr.eqb current_indent target_indent then lines
          else
            map (fun line =>
                   if truthy (strip line)
                   then target_indent ++ skipn min_indent_length line
                   else line)
                lines
      end
  end.

(* ================================================================== *)
(** ** The syntax tree read by the collector *)
(* ================================================================== *)

(** The part of Python's [ast] the collector inspects.  An expression
    holds no statement, so only the shape of a guard matters. *)
Inductive unaryop := Not | Invert | UAdd | USub.

Inductive expr :=
| Call (func : expr) (args : list expr)
| Attribute (value : expr) (attr : str)
| UnaryOp (op : unaryop) (operand : expr)
| Name (id : str)
| OtherExpr.

(** Statements with their 1-based [lineno] and [end_lineno].  [Compound]
    is any other statement that holds statements (def, class, for, while,
    with, try, match), its child statements in field order; [Simple] is any
    other statement without child statements. *)
Inductive stmt :=
| If (lineno end_lineno : Z) (test : expr) (body orelse : list stmt)
| Raise (lineno end_lineno : Z)
| Simple (lineno end_lineno : Z)
| Compound (lineno end_lineno : Z) (children : list stmt).

Definition lineno (s : stmt) : Z :=
  match s with
  | If l _ _ _ _ | Raise l _ | Simple l _ | Compound l _ _ => l
  end.

Definition end_lineno (s : stmt) : Z :=
  match s with
  | If _ e _ _ _ | Raise _ e | Simple _ e | Compound _ e _ => e
  end.

(** [min(...)] and [max(...)] of a generator: ValueError on no item. *)
Definition py_min (l : list Z) : option Z :=
  match l with
  | [] => None
  | x :: r => Some (fold_left Z.min r x)
  end.

Definition py_max (l : list Z) : option Z :=
  match l with
  | [] => None
  | x :: r => Some (fold_left Z.max r x)
  end.

(** Threading a state through a list of calls that may raise. *)
Definition visit_each {A S : Type} (f : A -> S -> option S)
  : list A -> S -> option S :=
  fix go (l : list A) (s : S) : option S :=
    match l with
    | [] => Some s
    | x :: r => match f x s with
                | None => None
                | Some s' => go r s'
                end
    end.

(* ================================================================== *)
(** ** The Flag Usage Locator *)
(* ================================================================== *)

(** One entry of [LocationCollector.locations].  The dictionaries have two
    shapes, told apart by their ['keep_body'] entry; the ['body'] entry of
    the first shape is never read again and is left out. *)
Inductive location :=
| KeepBody (if_start if_end true_branch_start true_branch_end : Z)
| RemoveBlock (if_start if_end : Z).


Definition if_start (loc : location) : Z :=
  match loc with KeepBody s _ _ _ | RemoveBlock s _ => s end.

Definition if_end (loc : location) : Z :=
  match loc with KeepBody _ e _ _ | RemoveBlock _ e => e end.

(** The two flags set at the head of [visit_If]:
    [(is_feature_flag, keep_body)]. *)
Definition classify (feature_flag_name : str) (test : expr) : bool * bool :=
  match test with
  | Call func _ =>
      match func with
      | Attribute _ attr => (PyStr.eqb attr feature_flag_name, true)
      | _ => (false, true)
      end
  | UnaryOp Not operand =>
      match operand with
      | Call (Attribute _ attr) _ =>
          if PyStr.eqb attr feature_flag_name then (true, false)
          else (false, true)
      | _ => (false, true)
      end
  | _ => (false, true)
  end.

(** [visit_If] up to its call of [generic_visit]: the entry appended to
    [locations], if any.  [None] is the ValueError of [min] on an empty
    body. *)
Definition visit_If_record (feature_flag_name : str)
    (node_lineno node_end_lineno : Z) (test : expr) (body : list stmt)
    (locations : list location) : option (list location) :=
  let '(is_feature_flag, keep) := classify feature_flag_name test in
  if is_feature_flag then
    let if_start := (node_lineno - 1)%Z in
    let if_end := node_end_lineno in
    if keep then
      match py_min (map (fun s => (lineno s - 1)%Z) body),
            py_max (map end_lineno body) with
      | Some true_branch_start, Some true_branch_end =>
          Some (locations ++
                [KeepBody if_start if_end true_branch_start true_branch_end])
      | _, _ => None
      end
    else Some (locations ++ [RemoveBlock if_start if_end])
  else Some locations.

(** [NodeVisitor.visit]: [visit_If] on a conditional (the entry, then
    [generic_visit] over [body] and [orelse]), [generic_visit] elsewhere. *)
Fixpoint visit (feature_flag_name : str) (node : stmt)
    (locations : list location) : option (list location) :=
  match node with
  | If l e test body orelse =>
      match visit_If_record feature_flag_name l e test body locations with
      | None => None
      | Some locations1 =>
          match visit_each (visit feature_flag_name) body locations1 with
          | None => None
          | Some locations2 =>
              visit_each (visit feature_flag_name) orelse locations2
          end
      end
  | Compound _ _ children =>
      visit_each (visit feature_flag_name) children locations
  | Raise _ _ | Simple _ _ => Some locations
  end.

(** [collector.visit(tree)] on the module, from empty [locations]. *)
Definition collect (feature_flag_name : str) (tree : list stmt)
  : option (list location) :=
  visit_each (visit feature_flag_name) tree [].

(* ================================================================== *)
(** ** The Source Rewriter *)
(* ================================================================== *)

(** One turn of the loop over [reversed(collector.locations)].  [None] is
    the IndexError of [lines[loc['if_start']]]. *)
Definition apply_location (loc : location) (lines : list str)
  : option (list str) :=
  match loc with
  | KeepBody if_start if_end true_branch_start true_branch_end =>
      match PyList.index lines if_start with
      | None => None
      | Some if_line =>
          let if_indent := get_indent if_line in
          let true_branch_lines :=
            PyList.getslice lines true_branch_start true_branch_end in
          let adjusted_lines :=
            adjust_indentation true_branch_lines if_indent in
          Some (PyList.setslice lines if_start if_end adjusted_lines)
      end
  | RemoveBlock if_start if_end =>
      Some (PyList.setslice lines if_start if_end [])
  end.

Definition rewrite (locations : list location) (lines : list str)
  : option (list str) :=
  visit_each apply_location (rev locations) lines.

Section Usage.
(** [ast.parse]: external; [None] is any exception it raises. *)
Variable parse : str -> option (list stmt).

(** [clean_flag_usage]: every exception inside the [try] gives
    [(source, False)]. *)
Definition clean_flag_usage (source feature_flag_name : str) : str * bool :=
  match parse source with
  | None => (source, false)
  | Some tree =>
      match collect feature_flag_name tree with
      | None => (source, false)
      | Some [] => (source, false)
      | Some locations =>
          match rewrite locations (splitlines source) with
          | None => (source, false)
          | Some lines => (join lines, true)
          end
      end
  end.
End Usage.

(* ================================================================== *)
(** ** The Flag Declaration Remover *)
(* ================================================================== *)

Definition open_paren : ascii := "("%char.
Definition close_paren : ascii := ")"%char.
Definition equals_sign : ascii := "="%char.
Definition constructor_open : str := lit "FeatureFlag(".

(** A match of [flag_pattern] starting at the head of [s], for a flag name
    without regular-expression metacharacters (an identifier): the name,
    [\s*], [=], [\s*], [FeatureFlag(], then [[^)]*\)], which succeeds
    exactly when a closing parenthesis follows somewhere, line breaks
    included.  No step has a second way to match, so nothing backtracks. *)
Definition flag_pattern_at (flag_name s : str) : bool :=
  if startswith flag_name s then
    match lstrip (skipn (length flag_name) s) with
    | c :: s1 =>
        if Ascii.eqb c equals_sign then
          let s2 := lstrip s1 in
          if startswith constructor_open s2
          then existsb (Ascii.eqb close_paren)
                       (skipn (length constructor_open) s2)
          else false
        else false
    | [] => false
    end
  else false.

(** [re.search(flag_pattern, s)] as a truth value. *)
Fixpoint search_flag_pattern (flag_name s : str) : bool :=
  flag_pattern_at flag_name s ||
  match s with
  | [] => false
  | _ :: s' => search_flag_pattern flag_name s'
  end.

(** [line.count('(') - line.count(')')] *)
Definition paren_balance (line : str) : Z :=
  (count open_paren line - count close_paren line)%Z.

(** The inner [while i < len(lines) and nested_level > 0] loop, run over
    [lines[i:]]: the index it stops at and the text it accumulated. *)
Fixpoint accumulate (rest : list str) (i : nat) (full_definition : str)
    (nested_level : Z) : nat * str :=
  match rest with
  | [] => (i, full_definition)
  | next_line :: rest' =>
      if (0 <? nested_level)%Z then
        accumulate rest' (S i) (full_definition ++ next_line)
                   (nested_level + paren_balance next_line)%Z
      else (i, full_definition)
  end.

(** The outer [while i < len(lines)] loop.  Every turn moves [i] forward,
    so [length lines] turns are enough; [None] is running out of turns. *)
Fixpoint scan (fuel : nat) (flag_name : str) (lines : list str) (i : nat)
    (output_lines : list str) (modified : bool)
  : option (list str * bool) :=
  match nth_error lines i with
  | None => Some (output_lines, modified)
  | Some line =>
      match fuel with
      | O => None
      | S fuel' =>
          if negb (truthy (strip line)) then
            scan fuel' flag_name lines (i + 1) (output_lines ++ [line]) modified
          else if contains flag_name line then
            if search_flag_pattern flag_name line then
              scan fuel' flag_name lines (i + 1) output_lines true
            else if contains [equals_sign] line
                    && contains constructor_open line then
              let nested_level := paren_balance line in
              let '(i', full_definition) :=
                accumulate (skipn (i + 1) lines) (i + 1) line nested_level in
              if search_flag_pattern flag_name
                   (remove_char newline full_definition)
              then scan fuel' flag_name lines i' output_lines true
              else scan fuel' flag_name lines (i' - 1 + 1)
                        (output_lines ++ [line]) modified
            else
              scan fuel' flag_name lines (i + 1) (output_lines ++ [line])
                   modified
          else
            scan fuel' flag_name lines (i + 1) (output_lines ++ [line]) modified
      end
  end.

(** [re.sub(r'\n\n\n+', '\n\n', result)]: every maximal run of three or
    more line feeds becomes two, that is, a line feed followed by two more
    is dropped. *)
Fixpoint collapse_blank_runs (s : str) : str :=
  match s with
  | [] => []
  | c :: rest =>
      if Ascii.eqb c newline && startswith [newline; newline] rest
      then collapse_blank_runs rest
      else c :: collapse_blank_runs rest
  end.

(** [remove_flag_definition] *)
Definition remove_flag_definition (content flag_name : str)
  : option (str * bool) :=
  let lines := splitlines content in
  match scan (length lines) flag_name lines 0 [] false with
  | None => None
  | Some (output_lines, modified) =>
      Some (collapse_blank_runs (join output_lines), modified)
  end.

(* ================================================================== *)
(** ** The File Processor *)
(* ================================================================== *)

Section FileProcessor.
Variable parse : str -> option (list stmt).

(** [process_file] without its file system calls: from what the file
    holds to what it holds afterwards and the value returned.
    [is_declarations_file] is ['feature_flags' in file_path.lower()]. *)
Definition process_file (is_declarations_file : bool)
    (source feature_flag_name : str) : option (str * bool) :=
  match
    (if is_declarations_file
     then match remove_flag_definition source feature_flag_name with
          | None => None
          | Some (cleaned_source, was_modified) =>
              Some (cleaned_source, was_modified)
          end
     else Some (source, false))
  with
  | None => None
  | Some (cleaned_source, modified) =>
      let '(cleaned_source', was_modified) :=
        clean_flag_usage parse
          (if negb modified then source else cleaned_source)
          feature_flag_name in
      let modified' := modified || was_modified in
      if modified' then Some (cleaned_source', true)
      else Some (source, false)
  end.
End FileProcessor.

(* ================================================================== *)
(** ** Sample programs *)
(* ================================================================== *)

Module Samples.

(** A line of text with its line feed. *)
Definition ln (s : string) : str := lit s ++ [newline].

Definition FOO : str := lit "FOO".

(** [flags.<attr>()] *)
Definition flag_call (attr : string) : expr :=
  Call (Attribute (Name (lit "flags")) (lit attr)) [].

(** A conditional on one line. *)
Definition one_liner_src : str := ln "if flags.FOO(): run()".
Definition one_liner_tree : list stmt :=
  [If 1 1 (flag_call "FOO") [Simple 1 1] []].

(** A one-line conditional with an else clause. *)
Definition one_liner_else_src : str :=
  join [ln "if flags.FOO(): run()"; ln "else: legacy()"].
Definition one_liner_else_tree : list stmt :=
  [If 1 2 (flag_call "FOO") [Simple 1 1] [Simple 2 2]].

(** A guarded conditional nested in another, followed by a statement. *)
Definition nested_src : str :=
  join [ln "if flags.FOO():";
        ln "    if flags.FOO():";
        ln "        run()";
        ln "after()"].
Definition nested_tree : list stmt :=
  [If 1 3 (flag_call "FOO")
      [If 2 3 (flag_call "FOO") [Simple 3 3] []] [];
   Simple 4 4].

(** A negated guard whose body is an assignment. *)
Definition negated_assign_src : str :=
  join [ln "if not flags.FOO():"; ln "    x = 1"].
Definition negated_assign_tree : list stmt :=
  [If 1 2 (UnaryOp Not (flag_call "FOO")) [Simple 2 2] []].

(** A negated guard that raises, followed by a statement. *)
Definition negated_raise_src : str :=
  join [ln "if not flags.FOO():"; ln "    raise Error('off')"; ln "run()"].
Definition negated_raise_tree : list stmt :=
  [If 1 2 (UnaryOp Not (flag_call "FOO")) [Raise 2 2] []; Simple 3 3].

(** A guard with two statements and an else clause, inside a function. *)
Definition scenario1_src : str :=
  join [ln "def f():";
        ln "    if flags.FOO():";
        ln "        a()";
        ln "        b()";
        ln "    else:";
        ln "        c()";
        ln "    return 1"].
Definition scenario1_tree : list stmt :=
  [Compound 1 7
     [If 2 6 (flag_call "FOO") [Simple 3 3; Simple 4 4] [Simple 6 6];
      Simple 7 7]].

(** A guard on another flag whose name starts with [FOO]. *)
Definition other_flag_src : str :=
  join [ln "if flags.FOOBAR():"; ln "    run()"].
Definition other_flag_tree : list stmt :=
  [If 1 2 (flag_call "FOOBAR") [Simple 2 2] []].

(** The programs above with the trees [ast.parse] gives them. *)
Definition programs : list (str * list stmt) :=
  [(one_liner_src, one_liner_tree);
   (one_liner_else_src, one_liner_else_tree);
   (nested_src, nested_tree);
   (negated_assign_src, negated_assign_tree);
   (negated_raise_src, negated_raise_tree);
   (scenario1_src, scenario1_tree);
   (other_flag_src, other_flag_tree)].

(** [ast.parse] on the sample programs; any other text is taken not to
    parse. *)
Definition parse (source : str) : option (list stmt) :=
  match find (fun p => PyStr.eqb (fst p) source) programs with
  | Some p => Some (snd p)
  | None => None
  end.

(** Declaration files. *)
Definition single_line_decl : str :=
  join [ln "class Flags:";
        ln "    FOO = FeatureFlag(default=False)";
        ln "    BAR = FeatureFlag(default=True)"].


(** Another flag's declaration that mentions [FOO] as an argument. *)
Definition dependent_decl : str :=
  join [ln "BAR = FeatureFlag(depends_on=FOO,";
        ln "    default=False)";
        ln "BAZ = 1"].

(** Declarations of flags whose names contain [FOO]. *)
Definition suffix_decl : str := ln "BARFOO = FeatureFlag(default=False)".
Definition prefix_decl : str := ln "FOOBAR = FeatureFlag(default=False)".
Definition prefix_multi_decl : str :=
  join [ln "FOOBAR = FeatureFlag(";
        ln "    default=False,";
        ln ")"].

(** Text without the flag name and with a run of blank lines. *)
Definition blank_run : str :=
  join [ln "a = 1"; ln ""; ln ""; ln ""; ln "b = 2"].
Definition spaced_imports : str :=
  join [ln "import os"; ln ""; ln ""; ln ""; ln ""; ln "import re"].

End Samples.

(* ================================================================== *)
(** ** Properties stated by the specification *)
(* ================================================================== *)






(** The specification's reading of a negated guard: the guarded statements
    are an unconditional abort, that is, they open with a raise. *)
Definition unconditional_abort (body : list stmt) : bool :=
  match body with
  | Raise _ _ :: _ => true
  | _ => false
  end.

(** A guard that negates a direct check of the flag. *)
Definition negated_flag_check (feature_flag_name : str) (test : expr) : Prop :=
  exists value args,
    test = UnaryOp Not (Call (Attribute value feature_flag_name) args).

(** A direct check of the flag. *)
Definition direct_flag_check (feature_flag_name : str) (test : expr) : Prop :=
  exists value args, test = Call (Attribute value feature_flag_name) args.

(** The rule of the Indentation Normalizer for one line: drop [k] leading
    characters of a non-blank line and put the target indentation first. *)
Definition reindent (k : nat) (target_indent line : str) : str :=
  if truthy (strip line) then target_indent ++ skipn k line else line.

(** The Indentation Normalizer in the specification's words: the rule on
    every line, with [k] taken from the first non-blank line. *)
Definition adjust_indentation_spec (lines : list str) (target_indent : str)
  : list str :=
  match filter (fun line => truthy (strip line)) lines with
  | [] => lines
  | first :: _ => map (reindent (length (get_indent first)) target_indent) lines
  end.

(** [out] keeps some of the items of [l], in their order. *)
Inductive subseq {A : Type} : list A -> list A -> Prop :=
| subseq_nil : subseq [] []
| subseq_keep x out l : subseq out l -> subseq (x :: out) (x :: l)
| subseq_drop x out l : subseq out l -> subseq out (x :: l).

(** A line that opens the multi-line lookahead of the Declaration Remover
    with an open parenthesis left to close. *)
Definition lookahead_start (flag_name line : str) : bool :=
  contains flag_name line && contains [equals_sign] line
  && contains constructor_open line && (0 <? paren_balance line)%Z.

Definition three_newlines : str := [newline; newline; newline].



Module Blocks.
Import Samples.

(** The lines of a one-line guard whose statement continues on a line
    that starts in the first column, as they reach the normalizer. *)
Definition continued_block : list str :=
  [ln "    if flags.FOO(): x = ("; ln "1)"].

Definition four_spaces : str := lit "    ".

(** A body one level deeper than its guard, with a deeper line and a
    line that starts in the first column. *)
Definition ragged_block : list str :=
  [ln "        a()"; ln ""; ln "            b()"; ln "c()"].
End Blocks.

(* ================================================================== *)
(** ** The file system side of the File Processor *)
(* ================================================================== *)

(** [str.lower] on one code point below U+0100: the letters A to Z and
    the capital letters U+00C0..U+00DE (the sign U+00D7 apart) move up by
    32. *)
Definition lower_char (c : ascii) : ascii :=
  let n := code c in
  if ((65 <=? n) && (n <=? 90)
      || (192 <=? n) && (n <=? 222) && negb (n =? 215))%N
  then ascii_of_N (n + 32)
  else c.

(** [s.lower()] *)
Definition lower (s : str) : str := map lower_char s.

(** ['feature_flags' in file_path.lower()] *)
Definition is_declarations_path (file_path : str) : bool :=
  contains (lit "feature_flags") (lower file_path).

(** The files the processor reads and writes: the text each path holds, as
    [f.read()] gives it; a path that holds nothing cannot be read.  Other
    failures of the file system are not modelled. *)
Definition filesystem := str -> option str.

(** Writing a file: [open(path, 'w')] and [shutil.copy2] onto a path. *)
Definition write (fs : filesystem) (path content : str) : filesystem :=
  fun q => if PyStr.eqb q path then Some content else fs q.

Definition backup_suffix : str := lit ".bak".

Section Files.
Variable parse : str -> option (list stmt).

(** [process_file] with its file system calls.  A path that cannot be
    read raises inside the [try]: nothing is written and [False] is
    returned.  The backup is copied before the file is written. *)
Definition process_file_at (fs : filesystem)
    (file_path feature_flag_name : str) (create_backup : bool)
  : option (filesystem * bool) :=
  match fs file_path with
  | None => Some (fs, false)
  | Some source =>
      match process_file parse (is_declarations_path file_path) source
              feature_flag_name with
      | None => None
      | Some (cleaned_source, true) =>
          let fs1 :=
            if create_backup
            then write fs (file_path ++ backup_suffix) source
            else fs in
          Some (write fs1 file_path cleaned_source, true)
      | Some (_, false) => Some (fs, false)
      end
  end.

(** The loop of [process_directory] over the paths that [os.walk] and
    [fnmatch.filter] give, in their order. *)
Fixpoint process_paths (paths : list str) (feature_flag_name : str)
    (create_backup : bool) (fs : filesystem) (total_files modified_files : Z)
  : option (filesystem * (Z * Z)) :=
  match paths with
  | [] => Some (fs, (total_files, modified_files))
  | file_path :: rest =>
      match process_file_at fs file_path feature_flag_name create_backup with
      | None => None
      | Some (fs', was_modified) =>
          process_paths rest feature_flag_name create_backup fs'
            (total_files + 1)%Z
            (if was_modified then modified_files + 1 else modified_files)%Z
      end
  end.

(** [process_directory]: the files afterwards and
    [(total_files, modified_files)]. *)
Definition process_directory (paths : list str) (feature_flag_name : str)
    (create_backup : bool) (fs : filesystem)
  : option (filesystem * (Z * Z)) :=
  process_paths paths feature_flag_name create_backup fs 0 0.
End Files.

(* ================================================================== *)
(** ** Further properties of the code *)
(* ================================================================== *)

(** A guard that checks the flag, directly or negated. *)
Definition is_flag_guard (feature_flag_name : str) (test : expr) : bool :=
  match test with
  | Call (Attribute _ attr) _ => PyStr.eqb attr feature_flag_name
  | UnaryOp Not (Call (Attribute _ attr) _) => PyStr.eqb attr feature_flag_name
  | _ => false
  end.

(** The conditionals of a statement, itself included, whose guard checks
    the flag. *)
Fixpoint guarded_count (feature_flag_name : str) (node : stmt) : nat :=
  match node with
  | If _ _ test body orelse =>
      (if is_flag_guard feature_flag_name test then 1 else 0)
      + list_sum (map (guarded_count feature_flag_name) body)
      + list_sum (map (guarded_count feature_flag_name) orelse)
  | Compound _ _ children =>
      list_sum (map (guarded_count feature_flag_name) children)
  | Raise _ _ | Simple _ _ => 0
  end.

(** What a record puts in place of its construct, read off the lines. *)
Definition replacement (lines : list str) (loc : location) : list str :=
  match loc with
  | KeepBody if_start _ true_branch_start true_branch_end =>
      adjust_indentation
        (PyList.getslice lines true_branch_start true_branch_end)
        (get_indent (nth (Z.to_nat if_start) lines []))
  | RemoveBlock _ _ => []
  end.

(** The lines from [from] on with every record replaced, all read off the
    same lines. *)
Fixpoint spliced (lines : list str) (locations : list location) (from : Z)
  : list str :=
  match locations with
  | [] => skipn (Z.to_nat from) lines
  | loc :: rest =>
      PyList.getslice lines from (if_start loc)
      ++ replacement lines loc
      ++ spliced lines rest (if_end loc)
  end.

(** A record whose spans lie in the lines, the body span within the
    construct span. *)
Definition in_lines (lines : list str) (loc : location) : Prop :=
  (0 <= if_start loc < if_end loc /\ if_end loc <= PyList.len lines)%Z
  /\ match loc with
     | KeepBody s e ts te => (s <= ts <= te /\ te <= e)%Z
     | RemoveBlock _ _ => True
     end.

(** Records in source order whose construct spans do not overlap, none
    starting before [from]. *)
Fixpoint separate (lines : list str) (from : Z) (locations : list location)
  : Prop :=
  match locations with
  | [] => (0 <= from <= PyList.len lines)%Z
  | loc :: rest =>
      (0 <= from <= if_start loc)%Z /\ in_lines lines loc
      /\ separate lines (if_end loc) rest
  end.

(** The parenthesis level after the lines [ls], from [level]. *)
Definition level_after (level : Z) (ls : list str) : Z :=
  fold_left (fun acc line => (acc + paren_balance line)%Z) ls level.

Module MoreSamples.
Import Samples.

(** A negated guard that raises, then a guard with an else clause, then
    a statement. *)
Definition two_guards_src : str :=
  join [ln "if not flags.FOO():";
        ln "    raise Error('off')";
        ln "if flags.FOO():";
        ln "    run()";
        ln "else:";
        ln "    legacy()";
        ln "done()"].
Definition two_guards_tree : list stmt :=
  [If 1 2 (UnaryOp Not (flag_call "FOO")) [Raise 2 2] [];
   If 3 6 (flag_call "FOO") [Simple 4 4] [Simple 6 6];
   Simple 7 7].
Definition two_guards_locations : list location :=
  [RemoveBlock 0 2; KeepBody 2 6 3 4].

(** [ast.parse] on that program. *)
Definition parse (source : str) : option (list stmt) :=
  if PyStr.eqb source two_guards_src then Some two_guards_tree else None.

(** A declarations file and a module that uses the flag. *)
Definition flags_path : str := lit "app/Feature_Flags.py".
Definition module_path : str := lit "app/views.py".
Definition missing_path : str := lit "app/gone.py".

Definition files : filesystem :=
  write (write (fun _ => None) flags_path single_line_decl)
        module_path two_guards_src.
End MoreSamples.

(* ================================================================== *)
(** * Proofs *)
(* ================================================================== *)

(** ** Strings *)

Lemma str_eqb_eq (a b : str) : PyStr.eqb a b = true <-> a = b.
Proof.
  revert b; induction a as [|x a IH]; intros [|y b]; simpl;
    try (split; [discriminate | discriminate]); try tauto.
  rewrite andb_true_iff, Ascii.eqb_eq, IH.
  split; [intros [-> ->]; reflexivity | intros H; inversion H; auto].
Qed.

Lemma str_eqb_refl (a : str) : PyStr.eqb a a = true.
Proof. apply str_eqb_eq; reflexivity. Qed.

Lemma str_eqb_neq (a b : str) : PyStr.eqb a b = false <-> a <> b.
Proof.
  rewrite <- str_eqb_eq. destruct (PyStr.eqb a b); split; congruence.
Qed.

(** Splitting a text into lines loses nothing. *)
Lemma join_splitlines (s : str) : join (splitlines s) = s.
Proof.
  unfold join.
  assert (H : forall n (t : str), length t <= n -> concat (splitlines t) = t).
  { induction n as [|n IH]; intros [|c rest] Hlen; try reflexivity;
      cbn [length] in Hlen; try lia.
    cbn [splitlines].
    destruct (is_linebreak c).
    - destruct rest as [|d rest']; [reflexivity|].
      destruct (Ascii.eqb c carriage_return && Ascii.eqb d newline);
        cbn [concat app].
      + rewrite IH by (cbn [length] in Hlen; lia). reflexivity.
      + rewrite IH by lia. reflexivity.
    - specialize (IH rest ltac:(lia)).
      destruct (splitlines rest) as [|l ls]; cbn [concat app] in *.
      + subst rest. reflexivity.
      + rewrite IH. reflexivity. }
  apply (H (length s)); lia.
Qed.

Lemma lstrip_length (s : str) : length (lstrip s) <= length s.
Proof. induction s as [|c s IH]; simpl; [lia|]. destruct (isspace c); simpl; lia. Qed.

(** A line is its indentation followed by its left-stripped text. *)
Lemma get_indent_step (c : ascii) (s : str) :
  get_indent (c :: s) = if isspace c then c :: get_indent s else [].
Proof.
  unfold get_indent. cbn [lstrip].
  destruct (isspace c).
  - pose proof (lstrip_length s). cbn [length].
    replace (S (length s) - length (lstrip s))
      with (S (length s - length (lstrip s))) by lia.
    reflexivity.
  - rewrite Nat.sub_diag. reflexivity.
Qed.

(** A line is its indentation followed by its left-stripped text. *)
Lemma get_indent_lstrip (line : str) : get_indent line ++ lstrip line = line.
Proof.
  induction line as [|c s IH]; [reflexivity|].
  rewrite get_indent_step. cbn [lstrip].
  destruct (isspace c); [cbn [app]; rewrite IH|]; reflexivity.
Qed.

Lemma get_indent_spaces (line : str) : forallb isspace (get_indent line) = true.
Proof.
  induction line as [|c s IH]; [reflexivity|].
  rewrite get_indent_step.
  destruct (isspace c) eqn:Hc; [cbn [forallb]; rewrite Hc, IH|]; reflexivity.
Qed.

Lemma lstrip_head (line : str) :
  match lstrip line with
  | [] => True
  | c :: _ => isspace c = false
  end.
Proof.
  induction line as [|c s IH]; simpl; [exact I|].
  destruct (isspace c) eqn:Hc; [exact IH | exact Hc].
Qed.

Lemma lstrip_nil_iff (s : str) : lstrip s = [] <-> forallb isspace s = true.
Proof.
  induction s as [|c s IH]; simpl; [tauto|].
  destruct (isspace c); simpl; [exact IH | split; discriminate].
Qed.

Lemma forallb_rev {A} (f : A -> bool) (l : list A) :
  forallb f (rev l) = forallb f l.
Proof.
  induction l as [|x l IH]; simpl; [reflexivity|].
  rewrite forallb_app, IH. simpl. rewrite andb_true_r, andb_comm. reflexivity.
Qed.

Lemma lstrip_keeps_nonspace (s : str) :
  forallb isspace (lstrip s) = forallb isspace s.
Proof.
  induction s as [|c s IH]; simpl; [reflexivity|].
  destruct (isspace c) eqn:Hc; simpl; [exact IH | rewrite Hc; reflexivity].
Qed.

(** [line.strip()] is empty exactly on a line of white space. *)
Lemma truthy_strip (line : str) :
  truthy (strip line) = negb (forallb isspace line).
Proof.
  unfold strip, rstrip.
  destruct (forallb isspace line) eqn:Hall.
  - assert (H : lstrip (rev (lstrip line)) = []).
    { apply lstrip_nil_iff. rewrite forallb_rev, lstrip_keeps_nonspace. exact Hall. }
    rewrite H. reflexivity.
  - destruct (lstrip (rev (lstrip line))) as [|c r] eqn:E.
    + apply lstrip_nil_iff in E.
      rewrite forallb_rev, lstrip_keeps_nonspace in E. congruence.
    + simpl. destruct (rev r ++ [c]) eqn:E2; [|reflexivity].
      destruct (rev r); discriminate.
Qed.

(** ** Lists *)

Section PyListFacts.
Variable A : Type.
Implicit Types (l v : list A) (a b i : Z).

Lemma clamp_in_range l a :
  (0 <= a <= PyList.len l)%Z -> PyList.clamp l a = a.
Proof.
  intros H. unfold PyList.clamp.
  destruct (a <? 0)%Z eqn:E; [apply Z.ltb_lt in E|]; lia.
Qed.

Lemma clamp_bounds l a : (0 <= PyList.clamp l a <= PyList.len l)%Z.
Proof.
  unfold PyList.clamp, PyList.len.
  destruct (a <? 0)%Z eqn:E;
    [apply Z.ltb_lt in E | apply Z.ltb_ge in E]; lia.
Qed.


Lemma index_in_range l i :
  (0 <= i)%Z -> PyList.index l i = nth_error l (Z.to_nat i).
Proof.
  intros H. unfold PyList.index.
  destruct (i <? 0)%Z eqn:E; [apply Z.ltb_lt in E; lia|].
  rewrite E. reflexivity.
Qed.

Lemma getslice_in_range l a b :
  (0 <= a <= b)%Z -> (b <= PyList.len l)%Z ->
  PyList.getslice l a b
  = firstn (Z.to_nat b - Z.to_nat a) (skipn (Z.to_nat a) l).
Proof.
  intros Ha Hb. unfold PyList.getslice.
  rewrite !clamp_in_range by lia.
  rewrite Z2Nat.inj_sub by lia. reflexivity.
Qed.


Lemma setslice_in_range l a b v :
  (0 <= a <= b)%Z -> (b <= PyList.len l)%Z ->
  PyList.setslice l a b v
  = firstn (Z.to_nat a) l ++ v ++ skipn (Z.to_nat b) l.
Proof.
  intros Ha Hb. unfold PyList.setslice.
  rewrite !clamp_in_range by lia.
  rewrite Z.max_l by lia. reflexivity.
Qed.
End PyListFacts.

(** ** The Indentation Normalizer *)

Lemma adjust_indentation_length (lines : list str) (target_indent : str) :
  length (adjust_indentation lines target_indent) = length lines.
Proof.
  unfold adjust_indentation.
  destruct lines as [|l0 ls]; [reflexivity|].
  destruct (filter _ (l0 :: ls)); [reflexivity|].
  destruct (PyStr.eqb _ _); [reflexivity|].
  apply length_map.
Qed.

(** Away from the fast path the normalizer is the rule on every line. *)
Lemma adjust_indentation_rule (lines : list str) (target_indent first : str)
    (rest : list str) :
  filter (fun line => truthy (strip line)) lines = first :: rest ->
  get_indent first <> target_indent ->
  adjust_indentation lines target_indent
  = map (reindent (length (get_indent first)) target_indent) lines.
Proof.
  intros Hf Hne. unfold adjust_indentation.
  destruct lines as [|l0 ls]; [discriminate|].
  rewrite Hf.
  apply str_eqb_neq in Hne. rewrite Hne. reflexivity.
Qed.

(** On the fast path the block comes back as it is. *)
Lemma adjust_indentation_fast_path (lines : list str) (target_indent first : str)
    (rest : list str) :
  filter (fun line => truthy (strip line)) lines = first :: rest ->
  get_indent first = target_indent ->
  adjust_indentation lines target_indent = lines.
Proof.
  intros Hf He. unfold adjust_indentation.
  destruct lines as [|l0 ls]; [reflexivity|].
  rewrite Hf. rewrite <- He, str_eqb_refl. reflexivity.
Qed.

Lemma skipn_app_le {A} (k : nat) (a b : list A) :
  k <= length a -> skipn k (a ++ b) = skipn k a ++ b.
Proof.
  intros H. rewrite skipn_app.
  replace (k - length a) with 0 by lia. reflexivity.
Qed.

Lemma skipn_app_ge {A} (k : nat) (a b : list A) :
  length a <= k -> skipn k (a ++ b) = skipn (k - length a) b.
Proof.
  intros H. rewrite skipn_app, skipn_all2 by lia. reflexivity.
Qed.

(** A non-blank line indented at least [k] deep keeps what lies beyond the
    first [k] characters of its indentation. *)
Lemma reindent_deeper (k : nat) (target_indent line : str) :
  truthy (strip line) = true ->
  k <= length (get_indent line) ->
  reindent k target_indent line
  = target_indent ++ skipn k (get_indent line) ++ lstrip line.
Proof.
  intros Hnb Hk. unfold reindent. rewrite Hnb.
  rewrite <- (get_indent_lstrip line) at 1.
  rewrite skipn_app_le by exact Hk. reflexivity.
Qed.

(** A non-blank line indented less than [k] deep loses all its
    indentation and the first characters of its text. *)
Lemma reindent_shallower (k : nat) (target_indent line : str) :
  truthy (strip line) = true ->
  length (get_indent line) < k ->
  reindent k target_indent line
  = target_indent ++ skipn (k - length (get_indent line)) (lstrip line)
  /\ length (skipn (k - length (get_indent line)) (lstrip line))
     < length (lstrip line).
Proof.
  intros Hnb Hk. unfold reindent. rewrite Hnb. split.
  - rewrite <- (get_indent_lstrip line) at 1.
    rewrite skipn_app_ge by lia. reflexivity.
  - rewrite length_skipn.
    assert (lstrip line <> []).
    { intros E. apply lstrip_nil_iff in E.
      rewrite truthy_strip, E in Hnb. discriminate. }
    destruct (lstrip line); [congruence | cbn [length]; lia].
Qed.

(** C10, as stated, fails on the fast path: a block whose first line is
    already at the target indentation comes back unchanged, although the
    rule would rewrite its line that starts in the first column. *)
Lemma C10_counterexample :
  adjust_indentation Blocks.continued_block Blocks.four_spaces
  <> adjust_indentation_spec Blocks.continued_block Blocks.four_spaces.
Proof. vm_compute. discriminate. Qed.

(** C10 (amended): when the indentation of the first non-blank line
    differs from the target, [adjust_indentation] rewrites every non-blank
    line by dropping exactly [k] leading characters and putting the target
    indentation first, [k] being the length of that indentation; a line
    indented at least [k] deep keeps its extra indentation, a line indented
    less deep loses characters of its text.  When the indentation equals
    the target, the block is returned unchanged. *)
Theorem C10_adjust_indentation (lines : list str) (target_indent first : str)
    (rest : list str)
    (Hfirst : filter (fun line => truthy (strip line)) lines = first :: rest) :
  (get_indent first = target_indent ->
   adjust_indentation lines target_indent = lines)
  /\ (get_indent first <> target_indent ->
      adjust_indentation lines target_indent
      = map (reindent (length (get_indent first)) target_indent) lines
      /\ forall line, In line lines -> truthy (strip line) = true ->
           (length (get_indent first) <= length (get_indent line) ->
            reindent (length (get_indent first)) target_indent line
            = target_indent
              ++ skipn (length (get_indent first)) (get_indent line)
              ++ lstrip line)
           /\ (length (get_indent line) < length (get_indent first) ->
               reindent (length (get_indent first)) target_indent line
               = target_indent
                 ++ skipn (length (get_indent first)
                           - length (get_indent line)) (lstrip line)
               /\ length (skipn (length (get_indent first)
                                 - length (get_indent line)) (lstrip line))
                  < length (lstrip line))).
Proof.
  split.
  - intros He. exact (adjust_indentation_fast_path _ Hfirst He).
  - intros Hne. split.
    + exact (adjust_indentation_rule _ Hfirst Hne).
    + intros line _ Hnb. split; intros Hk.
      * apply reindent_deeper; assumption.
      * apply reindent_shallower; assumption.
Qed.

(** A body two levels deep promoted to one level: the rule applies with
    [k = 8], the deeper line keeps four more spaces, the line in the first
    column loses its text. *)
Lemma C10_adjust_indentation_witness :
  adjust_indentation Blocks.ragged_block Blocks.four_spaces
  = map (reindent 8 Blocks.four_spaces) Blocks.ragged_block.
Proof.
  destruct (@C10_adjust_indentation Blocks.ragged_block Blocks.four_spaces
              (Samples.ln "        a()")
              [Samples.ln "            b()"; Samples.ln "c()"]
              eq_refl) as [_ H].
  destruct H as [H _]; [vm_compute; discriminate|].
  exact H.
Defined.

(** ** The Flag Usage Locator *)

(** Induction over statements and the statements they hold. *)
Lemma stmt_nested_ind (P : stmt -> Prop)
    (HIf : forall l e test body orelse,
        Forall P body -> Forall P orelse -> P (If l e test body orelse))
    (HRaise : forall l e, P (Raise l e))
    (HSimple : forall l e, P (Simple l e))
    (HCompound : forall l e children,
        Forall P children -> P (Compound l e children)) :
  forall s, P s.
Proof.
  fix IH 1.
  intros [l e test body orelse | l e | l e | l e children].
  - apply HIf.
    + induction body as [|x r IHr]; constructor; [apply IH | exact IHr].
    + induction orelse as [|x r IHr]; constructor; [apply IH | exact IHr].
  - apply HRaise.
  - apply HSimple.
  - apply HCompound.
    induction children as [|x r IHr]; constructor; [apply IH | exact IHr].
Qed.

Lemma classify_direct (F : str) (value : expr) (attr : str) (args : list expr) :
  classify F (Call (Attribute value attr) args) = (PyStr.eqb attr F, true).
Proof. reflexivity. Qed.

Lemma classify_negated (F : str) (value : expr) (attr : str) (args : list expr) :
  classify F (UnaryOp Not (Call (Attribute value attr) args))
  = (PyStr.eqb attr F, negb (PyStr.eqb attr F)).
Proof. simpl. destruct (PyStr.eqb attr F); reflexivity. Qed.

(** What [classify] answers, read back on the guard. *)
Lemma classify_cases (F : str) (test : expr) :
  (classify F test = (true, true) /\ direct_flag_check F test)
  \/ (classify F test = (true, false) /\ negated_flag_check F test)
  \/ (classify F test = (false, true)
      /\ ~ direct_flag_check F test /\ ~ negated_flag_check F test).
Proof.
  assert (Hdir : forall v a args,
             PyStr.eqb a F = false ->
             ~ direct_flag_check F (Call (Attribute v a) args)).
  { intros v a args E [v' [args' H]]. inversion H; subst.
    rewrite str_eqb_refl in E. discriminate. }
  assert (Hneg : forall v a args,
             PyStr.eqb a F = false ->
             ~ negated_flag_check F (UnaryOp Not (Call (Attribute v a) args))).
  { intros v a args E [v' [args' H]]. inversion H; subst.
    rewrite str_eqb_refl in E. discriminate. }
  destruct test as [func args | value attr | op operand | id | ].
  - destruct func as [f2 a2 | value attr | op operand | id | ];
      try (right; right; split; [reflexivity|];
           split; intros [v' [args' H]]; discriminate).
    simpl. destruct (PyStr.eqb attr F) eqn:E.
    + left. split; [reflexivity|]. apply str_eqb_eq in E. subst.
      exists value, args. reflexivity.
    + right; right. split; [reflexivity|]. split.
      * apply Hdir; exact E.
      * intros [v' [args' H]]; discriminate.
  - right; right; split; [reflexivity|];
      split; intros [v' [args' H]]; discriminate.
  - destruct op;
      try (right; right; split; [reflexivity|];
           split; intros [v' [args' H]]; discriminate).
    destruct operand as [func args | value attr | op operand | id | ];
      try (right; right; split; [reflexivity|];
           split; intros [v' [args' H]]; discriminate).
    destruct func as [f2 a2 | value attr | op operand | id | ];
      try (right; right; split; [reflexivity|];
           split; intros [v' [args' H]]; discriminate).
    simpl. destruct (PyStr.eqb attr F) eqn:E.
    + right; left. split; [reflexivity|]. apply str_eqb_eq in E. subst.
      exists value, args. reflexivity.
    + right; right. split; [reflexivity|]. split.
      * intros [v' [args' H]]; discriminate.
      * apply Hneg; exact E.
  - right; right; split; [reflexivity|];
      split; intros [v' [args' H]]; discriminate.
  - right; right; split; [reflexivity|];
      split; intros [v' [args' H]]; discriminate.
Qed.

Lemma app_one_neq {A} (l : list A) (x : A) : l ++ [x] <> l.
Proof.
  intros H. apply (f_equal (@length A)) in H.
  rewrite length_app in H. simpl in H. lia.
Qed.

(** The entry of a negated guard, whatever its body holds. *)
Lemma visit_If_record_negated (F : str) (l e : Z) (test : expr)
    (body : list stmt) (locations : list location) :
  negated_flag_check F test ->
  visit_If_record F l e test body locations
  = Some (locations ++ [RemoveBlock (l - 1) e]).
Proof.
  intros [v [args ->]]. unfold visit_If_record.
  rewrite classify_negated, str_eqb_refl. reflexivity.
Qed.

(** A guard that checks nothing of the flag leaves no entry. *)
Lemma visit_If_record_other (F : str) (l e : Z) (test : expr)
    (body : list stmt) (locations : list location) :
  ~ direct_flag_check F test -> ~ negated_flag_check F test ->
  visit_If_record F l e test body locations = Some locations.
Proof.
  intros Hd Hn. unfold visit_If_record.
  destruct (classify_cases F test) as [[_ H] | [[_ H] | [E _]]];
    [contradiction | contradiction |].
  rewrite E. reflexivity.
Qed.

(** Only a negated guard yields a [RemoveBlock] entry. *)
Lemma visit_If_record_remove_inv (F : str) (l e : Z) (test : expr)
    (body : list stmt) (locations : list location) (s t : Z) :
  visit_If_record F l e test body locations
  = Some (locations ++ [RemoveBlock s t]) ->
  negated_flag_check F test.
Proof.
  unfold visit_If_record.
  destruct (classify_cases F test) as [[E _] | [[_ H] | [E _]]];
    [| intros _; exact H |]; rewrite E.
  - destruct (py_min (map (fun c => (lineno c - 1)%Z) body)),
      (py_max (map end_lineno body)); try discriminate.
    intros H. inversion H as [H1].
    apply app_inv_head in H1. discriminate.
  - intros H. inversion H as [H1]. symmetry in H1.
    apply app_one_neq in H1. contradiction.
Qed.

Lemma apply_location_remove (lines : list str) (s e : Z) :
  (0 <= s <= e)%Z -> (e <= PyList.len lines)%Z ->
  apply_location (RemoveBlock s e) lines
  = Some (firstn (Z.to_nat s) lines ++ skipn (Z.to_nat e) lines).
Proof.
  intros Hs He. unfold apply_location.
  rewrite setslice_in_range by assumption. reflexivity.
Qed.

(** C2, as stated, fails: a negated guard is classified [keep_body=false]
    and its construct deleted although its body is an assignment and no
    abort. *)
Lemma C2_counterexample :
  collect Samples.FOO Samples.negated_assign_tree = Some [RemoveBlock 0 2]
  /\ unconditional_abort [Simple 2 2] = false
  /\ clean_flag_usage Samples.parse Samples.negated_assign_src Samples.FOO
     = ([], true).
Proof. vm_compute. repeat split. Qed.

(** C2 (amended): the Locator records [keep_body=false] exactly when the
    guard is a logical negation of a direct flag-check call, whatever the
    statements of the body are; the Rewriter deletes the whole construct
    span of such a record; and a guard that negates anything other than a
    direct flag-check call yields no record. *)
Theorem C2_negated_guard (F : str) (l e : Z) (test : expr)
    (body : list stmt) (locations : list location) :
  (negated_flag_check F test <->
   visit_If_record F l e test body locations
   = Some (locations ++ [RemoveBlock (l - 1) e]))
  /\ (forall operand,
         test = UnaryOp Not operand -> ~ direct_flag_check F operand ->
         visit_If_record F l e test body locations = Some locations)
  /\ (forall lines : list str,
         (1 <= l)%Z -> (l - 1 <= e)%Z -> (e <= PyList.len lines)%Z ->
         apply_location (RemoveBlock (l - 1) e) lines
         = Some (firstn (Z.to_nat (l - 1)) lines ++ skipn (Z.to_nat e) lines)).
Proof.
  split; [split|split].
  - apply visit_If_record_negated.
  - apply visit_If_record_remove_inv.
  - intros operand -> Hd. apply visit_If_record_other.
    + intros [v [args H]]; discriminate.
    + intros [v [args H]]. inversion H; subst.
      apply Hd. exists v, args. reflexivity.
  - intros lines H1 H2 H3. apply apply_location_remove; lia.
Qed.

(** A negated flag check, a negation of something else, and the deletion
    of the construct of the second scenario. *)
Lemma C2_negated_guard_witness :
  visit_If_record Samples.FOO 1 2 (UnaryOp Not (Samples.flag_call "FOO"))
    [Raise 2 2] []
  = Some [RemoveBlock 0 2]
  /\ visit_If_record Samples.FOO 1 2 (UnaryOp Not (Name (lit "debug")))
       [Raise 2 2] []
     = Some []
  /\ apply_location (RemoveBlock 0 2) (splitlines Samples.negated_raise_src)
     = Some [Samples.ln "run()"].
Proof.
  split; [|split].
  - apply (proj1 (C2_negated_guard Samples.FOO 1 2
                    (UnaryOp Not (Samples.flag_call "FOO")) [Raise 2 2] [])).
    exists (Name (lit "flags")), []. reflexivity.
  - apply (proj1 (proj2 (C2_negated_guard Samples.FOO 1 2
                           (UnaryOp Not (Name (lit "debug"))) [Raise 2 2] []))
             (Name (lit "debug")) eq_refl).
    intros [value [args H]]. discriminate H.
  - apply (proj2 (proj2 (C2_negated_guard Samples.FOO 1 2
                           (UnaryOp Not (Samples.flag_call "FOO"))
                           [Raise 2 2] []))
             (splitlines Samples.negated_raise_src));
      vm_compute; congruence.
Defined.

(** The negated guard of the second scenario: the block goes, the line
    after it stays. *)
Example negated_raise_removed :
  clean_flag_usage Samples.parse Samples.negated_raise_src Samples.FOO
  = (Samples.ln "run()", true).
Proof. vm_compute. reflexivity. Qed.

(** *** The span invariant *)














(** ** The Source Rewriter *)

(** One splice of a [keep_body=true] record whose spans lie within the
    lines: the construct span gives way to the lines of the body span,
    re-indented to the indentation of the first line of the construct. *)
Lemma apply_location_keep (lines : list str) (s e ts te : Z) (if_line : str) :
  (0 <= s <= e)%Z -> (e <= PyList.len lines)%Z ->
  nth_error lines (Z.to_nat s) = Some if_line ->
  apply_location (KeepBody s e ts te) lines
  = Some (firstn (Z.to_nat s) lines
          ++ adjust_indentation (PyList.getslice lines ts te)
                                (get_indent if_line)
          ++ skipn (Z.to_nat e) lines).
Proof.
  intros Hs He Hnth. unfold apply_location.
  rewrite index_in_range by lia. rewrite Hnth.
  rewrite setslice_in_range by assumption. reflexivity.
Qed.

(** The first scenario: the two statements of the body stay, at the depth
    of the guard; the guard and the else clause go. *)
Example scenario1_rewritten :
  clean_flag_usage Samples.parse Samples.scenario1_src Samples.FOO
  = (join [Samples.ln "def f():";
           Samples.ln "    a()";
           Samples.ln "    b()";
           Samples.ln "    return 1"], true).
Proof. vm_compute. reflexivity. Qed.

(** C1: on a conditional written on one line the body span is the line of
    the guard itself; the Rewriter puts that line back, so the clause
    header of the guard stays in the output (only the else clause goes). *)
Theorem C1_one_line_guard_kept :
  collect Samples.FOO Samples.one_liner_else_tree = Some [KeepBody 0 2 0 1]
  /\ clean_flag_usage Samples.parse Samples.one_liner_else_src Samples.FOO
     = (Samples.ln "if flags.FOO(): run()", true).
Proof. vm_compute. split; reflexivity. Qed.

(** C3: the record of a guarded conditional nested in another is applied
    first and shortens the lines; the record of the outer conditional is
    then applied with the line numbers of the original text, takes the line
    after the construct for a body line and cuts four characters off it. *)
Theorem C3_nested_guard_stale_indices :
  collect Samples.FOO Samples.nested_tree
  = Some [KeepBody 0 3 1 3; KeepBody 1 3 2 3]
  /\ rewrite [KeepBody 0 3 1 3; KeepBody 1 3 2 3]
             (splitlines Samples.nested_src)
     = Some [Samples.ln "run()"; Samples.ln "r()"]
  /\ clean_flag_usage Samples.parse Samples.nested_src Samples.FOO
     = (join [Samples.ln "run()"; Samples.ln "r()"], true).
Proof. vm_compute. repeat split. Qed.

(** C4: on a conditional written on one line every pass of the file
    processor reports a modification and leaves the text as it was. *)
Theorem C4_second_pass_modifies :
  exists out,
    process_file Samples.parse false Samples.one_liner_src Samples.FOO
    = Some (out, true)
    /\ process_file Samples.parse false out Samples.FOO = Some (out, true).
Proof.
  exists Samples.one_liner_src. vm_compute. split; reflexivity.
Qed.

(** ** The Flag Declaration Remover *)

Lemma subseq_refl {A} (l : list A) : subseq l l.
Proof. induction l; constructor; assumption. Qed.

Lemma subseq_app_drop {A} (pre out l : list A) :
  subseq out l -> subseq out (pre ++ l).
Proof. intros H. induction pre; simpl; [exact H | constructor; exact IHpre]. Qed.

Lemma subseq_skipn_le {A} (out l : list A) (i j : nat) :
  i <= j -> subseq out (skipn j l) -> subseq out (skipn i l).
Proof.
  intros Hij H.
  rewrite <- (firstn_skipn (j - i) (skipn i l)).
  rewrite skipn_skipn. replace (j - i + i) with j by lia.
  apply subseq_app_drop. exact H.
Qed.

Lemma skipn_nth_error {A} (l : list A) (i : nat) (x : A) :
  nth_error l i = Some x -> skipn i l = x :: skipn (S i) l.
Proof.
  revert i; induction l as [|y l IH]; intros [|i] H; simpl in *;
    try discriminate.
  - inversion H. reflexivity.
  - apply IH. exact H.
Qed.

Lemma skipn_nth_error_none {A} (l : list A) (i : nat) :
  nth_error l i = None -> skipn i l = [].
Proof. intros H. apply skipn_all2. apply nth_error_None. exact H. Qed.

(** The lookahead stops at or after the index it starts from, within the
    lines. *)
Lemma accumulate_index (rest : list str) (i : nat) (full : str) (level : Z) :
  i <= fst (accumulate rest i full level)
  /\ fst (accumulate rest i full level) <= i + length rest.
Proof.
  revert i full level; induction rest as [|x r IH]; intros i full level;
    cbn [accumulate length fst]; [lia|].
  destruct (0 <? level)%Z; cbn [fst]; [|lia].
  specialize (IH (S i) (full ++ x) (level + paren_balance x)%Z). lia.
Qed.

(** With no parenthesis left to close the lookahead reads no line. *)
Lemma accumulate_balanced (rest : list str) (i : nat) (full : str) (level : Z) :
  (level <= 0)%Z -> accumulate rest i full level = (i, full).
Proof.
  intros H. destruct rest; cbn [accumulate]; [reflexivity|].
  destruct (0 <? level)%Z eqn:E; [apply Z.ltb_lt in E; lia | reflexivity].
Qed.

(** The outer loop ends within [length lines] turns, and what it puts out
    is a selection of the lines it was given, in their order. *)
Lemma scan_selects (F : str) (lines : list str) :
  forall fuel i output_lines modified,
    length lines - i <= fuel ->
    exists out' modified',
      scan fuel F lines i output_lines modified
      = Some (output_lines ++ out', modified')
      /\ subseq out' (skipn i lines).
Proof.
  induction fuel as [|fuel IH]; intros i out m Hfuel.
  - assert (Hnone : nth_error lines i = None) by (apply nth_error_None; lia).
    exists [], m. cbn [scan]. rewrite Hnone, app_nil_r.
    split; [reflexivity|]. rewrite skipn_nth_error_none by exact Hnone.
    constructor.
  - cbn [scan]. destruct (nth_error lines i) as [line|] eqn:Hnth.
    2:{ exists [], m. rewrite app_nil_r. split; [reflexivity|].
        rewrite skipn_nth_error_none by exact Hnth. constructor. }
    assert (Hi : i < length lines)
      by (apply nth_error_Some; congruence).
    rewrite (skipn_nth_error _ _ Hnth).
    assert (Hkeep : forall m0,
               exists out' modified',
                 scan fuel F lines (i + 1) (out ++ [line]) m0
                 = Some (out ++ out', modified')
                 /\ subseq out' (line :: skipn (S i) lines)).
    { intros m0. destruct (IH (i + 1) (out ++ [line]) m0 ltac:(lia))
        as [out' [m' [E S']]].
      exists (line :: out'), m'. rewrite E, <- app_assoc.
      split; [reflexivity|]. constructor.
      rewrite Nat.add_1_r in S'. exact S'. }
    assert (Hdrop : forall j m0, i + 1 <= j ->
               exists out' modified',
                 scan fuel F lines j out m0 = Some (out ++ out', modified')
                 /\ subseq out' (line :: skipn (S i) lines)).
    { intros j m0 Hj. destruct (IH j out m0 ltac:(lia)) as [out' [m' [E S']]].
      exists out', m'. split; [exact E|]. constructor.
      apply (@subseq_skipn_le _ out' lines (S i) j); [lia | exact S']. }
    destruct (negb (truthy (strip line))); [apply Hkeep|].
    destruct (contains F line); [|apply Hkeep].
    destruct (search_flag_pattern F line); [apply Hdrop; lia|].
    destruct (contains [equals_sign] line && contains constructor_open line);
      [|apply Hkeep].
    pose proof (accumulate_index (skipn (i + 1) lines) (i + 1) line
                  (paren_balance line)) as [Hlo Hhi].
    destruct (accumulate (skipn (i + 1) lines) (i + 1) line
                (paren_balance line)) as [i' full] eqn:Eacc.
    cbn [fst] in Hlo, Hhi.
    destruct (search_flag_pattern F (remove_char newline full));
      [apply Hdrop; exact Hlo|].
    replace (i' - 1 + 1) with i' by lia.
    destruct (IH i' (out ++ [line]) m ltac:(lia)) as [out' [m' [E S']]].
    exists (line :: out'), m'. rewrite E, <- app_assoc.
    split; [reflexivity|]. constructor.
    apply (@subseq_skipn_le _ out' lines (S i) i'); [lia | exact S'].
Qed.

(** Once set, [modified] stays set. *)
Lemma scan_modified_stays (F : str) (lines : list str) :
  forall fuel i output_lines res m,
    scan fuel F lines i output_lines true = Some (res, m) -> m = true.
Proof.
  induction fuel as [|fuel IH]; intros i out res m; cbn [scan];
    destruct (nth_error lines i) as [line|];
    try (intros H; inversion H; reflexivity); try discriminate.
  destruct (negb (truthy (strip line))); [apply IH|].
  destruct (contains F line); [|apply IH].
  destruct (search_flag_pattern F line); [apply IH|].
  destruct (contains [equals_sign] line && contains constructor_open line);
    [|apply IH].
  destruct (accumulate _ _ _ _) as [i' full].
  destruct (search_flag_pattern F (remove_char newline full)); apply IH.
Qed.

(** A pass that reports no modification over lines none of which opens a
    lookahead with a parenthesis left to close puts out every line. *)
Lemma scan_unmodified (F : str) (lines : list str) :
  forallb (fun line => negb (lookahead_start F line)) lines = true ->
  forall fuel i output_lines res,
    scan fuel F lines i output_lines false = Some (res, false) ->
    res = output_lines ++ skipn i lines.
Proof.
  intros Hno.
  induction fuel as [|fuel IH]; intros i out res; cbn [scan];
    destruct (nth_error lines i) as [line|] eqn:Hnth;
    try discriminate;
    try (intros H; inversion H; subst;
         rewrite skipn_nth_error_none by exact Hnth;
         rewrite app_nil_r; reflexivity).
  rewrite (skipn_nth_error _ _ Hnth).
  assert (Hkeep : scan fuel F lines (i + 1) (out ++ [line]) false
                  = Some (res, false) ->
                  res = out ++ line :: skipn (S i) lines).
  { intros H. apply IH in H. rewrite H, <- app_assoc, Nat.add_1_r.
    reflexivity. }
  assert (Hmod : forall j, scan fuel F lines j out true = Some (res, false) ->
                           res = out ++ line :: skipn (S i) lines).
  { intros j H. apply scan_modified_stays in H. discriminate. }
  destruct (negb (truthy (strip line))); [exact Hkeep|].
  destruct (contains F line) eqn:HF; [|exact Hkeep].
  destruct (search_flag_pattern F line); [apply Hmod|].
  destruct (contains [equals_sign] line && contains constructor_open line)
    eqn:Hstart; [|exact Hkeep].
  assert (Hbal : (paren_balance line <= 0)%Z).
  { rewrite forallb_forall in Hno.
    specialize (Hno line (nth_error_In _ _ Hnth)).
    unfold lookahead_start in Hno.
    apply andb_true_iff in Hstart as [He Hc].
    rewrite HF, He, Hc in Hno. cbn [andb negb] in Hno.
    apply negb_true_iff, Z.ltb_ge in Hno. exact Hno. }
  rewrite accumulate_balanced by exact Hbal.
  destruct (search_flag_pattern F (remove_char newline line)); [apply Hmod|].
  replace (i + 1 - 1 + 1) with (i + 1) by lia. exact Hkeep.
Qed.


(** A text without three line feeds in a row passes the blank-run cleanup
    unchanged. *)
Lemma collapse_blank_runs_id (s : str) :
  contains three_newlines s = false -> collapse_blank_runs s = s.
Proof.
  induction s as [|c rest IH]; [reflexivity|].
  cbn [contains]. intros H. apply orb_false_iff in H as [Hhere Hrest].
  cbn [collapse_blank_runs]. rewrite (IH Hrest).
  unfold three_newlines in Hhere. cbn [startswith] in Hhere.
  rewrite Ascii.eqb_sym.
  destruct (Ascii.eqb newline c); [|reflexivity].
  cbn [andb] in Hhere |- *.
  cbn [startswith]. rewrite Hhere. reflexivity.
Qed.

(** [remove_flag_definition] always returns. *)
Lemma remove_flag_definition_total (content F : str) :
  exists text modified, remove_flag_definition content F = Some (text, modified).
Proof.
  unfold remove_flag_definition.
  destruct (@scan_selects F (splitlines content) (length (splitlines content))
              0 [] false ltac:(lia)) as [out [m [E _]]].
  rewrite E. eauto.
Qed.

(** C5: the lookahead opened by the declaration of another flag that
    names [FOO] among its arguments reads the line that closes the
    parenthesis, finds no declaration of [FOO], puts the first line out and
    goes on after the lines it read: the closing line is lost, and no
    modification is reported. *)
Theorem C5_lookahead_drops_lines :
  In (Samples.ln "    default=False)") (splitlines Samples.dependent_decl)
  /\ remove_flag_definition Samples.dependent_decl Samples.FOO
     = Some (join [Samples.ln "BAR = FeatureFlag(depends_on=FOO,";
                   Samples.ln "BAZ = 1"], false).
Proof. split; [vm_compute; tauto | vm_compute; reflexivity]. Qed.

Lemma segment_split {A} (l : list A) (i i' j : nat) :
  i <= i' -> i' <= j ->
  firstn (j - i) (skipn i l)
  = firstn (i' - i) (skipn i l) ++ firstn (j - i') (skipn i' l).
Proof.
  intros H1 H2.
  rewrite <- (firstn_skipn (i' - i) (skipn i l)) at 1.
  rewrite skipn_skipn. replace (i' - i + i) with i' by lia.
  rewrite firstn_app, firstn_firstn, length_firstn, length_skipn.
  replace (Nat.min (j - i) (i' - i)) with (i' - i) by lia.
  destruct (Nat.le_gt_cases (i' - i) (length l - i)) as [Hle|Hgt].
  - rewrite Nat.min_l by exact Hle.
    replace (j - i - (i' - i)) with (j - i') by lia. reflexivity.
  - rewrite (skipn_all2 l (n := i')) by lia.
    rewrite !firstn_nil. reflexivity.
Qed.







(** C7, as stated, fails: on a text without any declaration
    [remove_flag_definition] reports no modification and still returns a
    text with its run of blank lines collapsed. *)
Lemma C7_counterexample :
  exists out,
    remove_flag_definition Samples.spaced_imports Samples.FOO
    = Some (out, false)
    /\ out <> Samples.spaced_imports.
Proof.
  eexists. split; [vm_compute; reflexivity | vm_compute; discriminate].
Qed.

Lemma clean_flag_usage_unmodified (parse : str -> option (list stmt))
    (source F txt : str) :
  clean_flag_usage parse source F = (txt, false) -> txt = source.
Proof.
  unfold clean_flag_usage.
  destruct (parse source) as [tree|]; [|intros H; inversion H; reflexivity].
  destruct (collect F tree) as [[|loc locs]|];
    try (intros H; inversion H; reflexivity).
  destruct (rewrite (loc :: locs) (splitlines source));
    intros H; inversion H; reflexivity.
Qed.

(** C7 (amended): when [clean_flag_usage] reports no modification the text
    it returns is the input; when [remove_flag_definition] reports none on
    a text no line of which opens a lookahead with a parenthesis left to
    close, the text it returns is the input with every run of three or
    more line feeds cut down to two, hence the input itself when it holds
    no such run. *)
Theorem C7_unmodified_text :
  (forall (parse : str -> option (list stmt)) (source F txt : str),
      clean_flag_usage parse source F = (txt, false) -> txt = source)
  /\ (forall content F txt : str,
         forallb (fun line => negb (lookahead_start F line))
                 (splitlines content) = true ->
         remove_flag_definition content F = Some (txt, false) ->
         txt = collapse_blank_runs content
         /\ (contains three_newlines content = false -> txt = content)).
Proof.
  split; [exact clean_flag_usage_unmodified|].
  intros content F txt Hno Hdecl.
  assert (E : txt = collapse_blank_runs content).
  { unfold remove_flag_definition in Hdecl.
    destruct (scan _ _ _ _ _ _) as [[out m]|] eqn:Escan; [|discriminate].
    inversion Hdecl; subst.
    apply (scan_unmodified _ _ Hno) in Escan. cbn [app skipn] in Escan.
    subst out. rewrite join_splitlines. reflexivity. }
  split; [exact E|].
  intros H3. rewrite E. apply collapse_blank_runs_id. exact H3.
Qed.

(** A guard on another flag, and the one-line declaration of a flag whose
    name starts with [FOO]: both come back verbatim. *)
Lemma C7_unmodified_text_witness :
  Samples.other_flag_src = Samples.other_flag_src
  /\ Samples.prefix_decl = collapse_blank_runs Samples.prefix_decl
  /\ Samples.prefix_decl = Samples.prefix_decl.
Proof.
  destruct C7_unmodified_text as [Husage Hdecl].
  split.
  - apply (Husage Samples.parse Samples.other_flag_src Samples.FOO).
    vm_compute. reflexivity.
  - destruct (Hdecl Samples.prefix_decl Samples.FOO Samples.prefix_decl)
      as [H1 H2]; [vm_compute; reflexivity | vm_compute; reflexivity |].
    split; [exact H1 | apply H2; vm_compute; reflexivity].
Defined.

(** C8: asked to remove [FOO], the Declaration Remover deletes the
    declaration of [BARFOO], whose name ends in [FOO]: the pattern is
    searched anywhere in the line and nothing ties its start to the start
    of a name.  It also cuts the multi-line declaration of [FOOBAR] down to
    its first line, through the lookahead. *)
Theorem C8_other_flag_declaration_removed :
  remove_flag_definition Samples.suffix_decl Samples.FOO = Some ([], true)
  /\ remove_flag_definition Samples.prefix_multi_decl Samples.FOO
     = Some (Samples.ln "FOOBAR = FeatureFlag(", false).
Proof. vm_compute. split; reflexivity. Qed.

(** The usage side of the same scenario: a guard on a flag of another name
    leaves no record, whether direct or negated. *)
Lemma visit_If_record_other_flag (F G : str) (l e : Z) (value : expr)
    (args : list expr) (body : list stmt) (locations : list location) :
  G <> F ->
  visit_If_record F l e (Call (Attribute value G) args) body locations
  = Some locations
  /\ visit_If_record F l e (UnaryOp Not (Call (Attribute value G) args))
       body locations
     = Some locations.
Proof.
  intros Hne. apply str_eqb_neq in Hne. unfold visit_If_record.
  rewrite classify_direct, classify_negated, Hne. split; reflexivity.
Qed.

Example other_flag_untouched :
  clean_flag_usage Samples.parse Samples.other_flag_src Samples.FOO
  = (Samples.other_flag_src, false)
  /\ remove_flag_definition Samples.prefix_decl Samples.FOO
     = Some (Samples.prefix_decl, false).
Proof. vm_compute. split; reflexivity. Qed.

(** The third scenario: a declaration on one line goes. *)
Example single_line_declaration_removed :
  remove_flag_definition Samples.single_line_decl Samples.FOO
  = Some (join [Samples.ln "class Flags:";
                Samples.ln "    BAR = FeatureFlag(default=True)"], true).
Proof. vm_compute. reflexivity. Qed.

(* ================================================================== *)
(** * Further properties *)
(* ================================================================== *)

(** ** The Indentation Normalizer *)

(** [get_indent] returns the white space a line starts with: the line is
    that indentation followed by a text that is empty or starts with a
    character that is no white space. *)
Theorem get_indent_leading_whitespace (line : str) :
  exists text,
    line = get_indent line ++ text
    /\ forallb isspace (get_indent line) = true
    /\ match text with [] => True | c :: _ => isspace c = false end.
Proof.
  exists (lstrip line). split; [|split].
  - symmetry. apply get_indent_lstrip.
  - apply get_indent_spaces.
  - apply lstrip_head.
Qed.

Lemma get_indent_app (indent text : str) :
  forallb isspace indent = true ->
  match text with [] => True | c :: _ => isspace c = false end ->
  get_indent (indent ++ text) = indent.
Proof.
  intros Hs Ht. induction indent as [|c r IH]; cbn [app].
  - destruct text as [|c t]; [reflexivity|].
    rewrite get_indent_step, Ht. reflexivity.
  - cbn [forallb] in Hs. apply andb_true_iff in Hs as [Hc Hr].
    rewrite get_indent_step, Hc, (IH Hr). reflexivity.
Qed.

Lemma nonblank_lstrip (line : str) :
  truthy (strip line) = true ->
  match lstrip line with [] => False | c :: _ => isspace c = false end.
Proof.
  intros H. pose proof (lstrip_head line) as Hh.
  destruct (lstrip line) eqn:E; [|exact Hh].
  apply lstrip_nil_iff in E. rewrite truthy_strip, E in H. discriminate.
Qed.

Lemma truthy_strip_app (indent text : str) (c : ascii) :
  isspace c = false -> truthy (strip (indent ++ c :: text)) = true.
Proof.
  intros Hc. rewrite truthy_strip, forallb_app. cbn [forallb].
  rewrite Hc. cbn [andb]. rewrite andb_false_r. reflexivity.
Qed.

Lemma filter_first {A} (P : A -> bool) (l : list A) (x : A) (r : list A) :
  filter P l = x :: r ->
  exists pre post,
    l = pre ++ x :: post /\ forallb (fun y => negb (P y)) pre = true
    /\ P x = true /\ filter P post = r.
Proof.
  induction l as [|y l IH]; cbn [filter]; [discriminate|].
  destruct (P y) eqn:E; intros H.
  - inversion H; subst. exists [], l. repeat split; assumption.
  - destruct (IH H) as [pre [post [-> [Hpre [Hx Hpost]]]]].
    exists (y :: pre), post. cbn [forallb]. rewrite E. repeat split; assumption.
Qed.

Lemma filter_none {A} (P : A -> bool) (l : list A) :
  forallb (fun y => negb (P y)) l = true -> filter P l = [].
Proof.
  induction l as [|y l IH]; cbn [forallb filter]; [reflexivity|].
  intros H. apply andb_true_iff in H as [Hy Hl].
  apply negb_true_iff in Hy. rewrite Hy. exact (IH Hl).
Qed.

(** The normalizer keeps the number of lines, and a blank line stays what
    it is, where it is. *)
Theorem adjust_indentation_keeps_blank_lines (lines : list str)
    (target_indent : str) :
  length (adjust_indentation lines target_indent) = length lines
  /\ forall i line,
       nth_error lines i = Some line -> truthy (strip line) = false ->
       nth_error (adjust_indentation lines target_indent) i = Some line.
Proof.
  split; [apply adjust_indentation_length|].
  intros i line Hi Hblank. unfold adjust_indentation.
  destruct lines as [|l0 ls]; [exact Hi|].
  destruct (filter _ (l0 :: ls)) as [|first rest]; [exact Hi|].
  destruct (PyStr.eqb _ _); [exact Hi|].
  rewrite nth_error_map, Hi. cbn [option_map]. rewrite Hblank. reflexivity.
Qed.

Lemma first_nonblank_after_adjust (lines : list str)
    (target_indent first : str) (rest : list str)
    (Hfirst : filter (fun line => truthy (strip line)) lines = first :: rest)
    (Htarget : forallb isspace target_indent = true) :
  exists rest',
    filter (fun line => truthy (strip line))
           (adjust_indentation lines target_indent)
    = (target_indent ++ lstrip first) :: rest'
    /\ get_indent (target_indent ++ lstrip first) = target_indent.
Proof.
  pose proof (filter_first _ _ Hfirst) as [pre [post [El [Hpre [Hnb _]]]]].
  pose proof (nonblank_lstrip _ Hnb) as Hhead.
  assert (Hind : get_indent (target_indent ++ lstrip first) = target_indent).
  { apply get_indent_app; [exact Htarget|].
    destruct (lstrip first); [contradiction | exact Hhead]. }
  destruct (PyStr.eqb (get_indent first) target_indent) eqn:E.
  - apply str_eqb_eq in E.
    rewrite (adjust_indentation_fast_path _ Hfirst E), Hfirst.
    exists rest. split; [|exact Hind].
    rewrite <- E, get_indent_lstrip. reflexivity.
  - apply str_eqb_neq in E.
    rewrite (adjust_indentation_rule _ Hfirst E), El.
    rewrite map_app, filter_app. cbn [map filter].
    assert (Hmap : map (reindent (length (get_indent first)) target_indent) pre
                   = pre).
    { clear El. induction pre as [|y pre IH]; [reflexivity|].
      cbn [forallb] in Hpre. apply andb_true_iff in Hpre as [Hy Hp].
      apply negb_true_iff in Hy. cbn [map]. unfold reindent at 1.
      rewrite Hy, (IH Hp). reflexivity. }
    rewrite Hmap, (filter_none _ _ Hpre). cbn [app].
    assert (Hre : reindent (length (get_indent first)) target_indent first
                  = target_indent ++ lstrip first).
    { unfold reindent. rewrite Hnb.
      rewrite <- (get_indent_lstrip first) at 2.
      rewrite skipn_app_ge by lia. rewrite Nat.sub_diag. reflexivity. }
    rewrite Hre.
    assert (Hnb' : truthy (strip (target_indent ++ lstrip first)) = true).
    { destruct (lstrip first) as [|c t]; [contradiction|].
      apply truthy_strip_app. exact Hhead. }
    rewrite Hnb'. eexists. split; [reflexivity | exact Hind].
Qed.

(** After the normalizer the first non-blank line of the block stands at
    the target indentation, with its text unchanged. *)
Theorem adjust_indentation_first_line (lines : list str)
    (target_indent first : str) (rest : list str)
    (Hfirst : filter (fun line => truthy (strip line)) lines = first :: rest)
    (Htarget : forallb isspace target_indent = true) :
  exists rest',
    filter (fun line => truthy (strip line))
           (adjust_indentation lines target_indent)
    = (target_indent ++ lstrip first) :: rest'
    /\ get_indent (target_indent ++ lstrip first) = target_indent.
Proof.
  exact (@first_nonblank_after_adjust lines target_indent first rest
           Hfirst Htarget).
Qed.

Lemma adjust_indentation_first_line_witness :
  exists rest',
    filter (fun line => truthy (strip line))
           (adjust_indentation Blocks.ragged_block Blocks.four_spaces)
    = (Blocks.four_spaces ++ lstrip (Samples.ln "        a()")) :: rest'
    /\ get_indent (Blocks.four_spaces ++ lstrip (Samples.ln "        a()"))
       = Blocks.four_spaces.
Proof.
  apply (@adjust_indentation_first_line Blocks.ragged_block Blocks.four_spaces
           (Samples.ln "        a()")
           [Samples.ln "            b()"; Samples.ln "c()"]);
    reflexivity.
Defined.

(** Normalizing twice to the same indentation is normalizing once. *)
Theorem adjust_indentation_idempotent (lines : list str) (target_indent : str)
    (Htarget : forallb isspace target_indent = true) :
  adjust_indentation (adjust_indentation lines target_indent) target_indent
  = adjust_indentation lines target_indent.
Proof.
  destruct (filter (fun line => truthy (strip line)) lines)
    as [|first rest] eqn:Hf.
  - assert (E : adjust_indentation lines target_indent = lines).
    { unfold adjust_indentation. destruct lines; [reflexivity|].
      rewrite Hf. reflexivity. }
    rewrite E. exact E.
  - destruct (@first_nonblank_after_adjust lines target_indent first rest
                Hf Htarget) as [rest' [Hf' Hi]].
    exact (adjust_indentation_fast_path _ Hf' Hi).
Qed.

Lemma adjust_indentation_idempotent_witness :
  adjust_indentation
    (adjust_indentation Blocks.ragged_block Blocks.four_spaces)
    Blocks.four_spaces
  = adjust_indentation Blocks.ragged_block Blocks.four_spaces.
Proof.
  apply (@adjust_indentation_idempotent Blocks.ragged_block Blocks.four_spaces).
  reflexivity.
Defined.

(** ** The Flag Usage Locator *)

Lemma classify_is_flag_guard (F : str) (test : expr) :
  fst (classify F test) = is_flag_guard F test.
Proof.
  unfold classify, is_flag_guard.
  repeat match goal with
         | |- context [match ?x with _ => _ end] => destruct x
         end; reflexivity.
Qed.

Lemma visit_If_record_length (F : str) (l e : Z) (test : expr)
    (body : list stmt) (locations locations' : list location) :
  visit_If_record F l e test body locations = Some locations' ->
  length locations'
  = length locations + (if is_flag_guard F test then 1 else 0).
Proof.
  unfold visit_If_record. rewrite <- classify_is_flag_guard.
  destruct (classify F test) as [[|] [|]]; cbn [fst].
  - destruct (py_min (map (fun c => (lineno c - 1)%Z) body)),
      (py_max (map end_lineno body)); try discriminate.
    intros H; inversion H. rewrite length_app. reflexivity.
  - intros H; inversion H. rewrite length_app. reflexivity.
  - intros H; inversion H. lia.
  - intros H; inversion H. lia.
Qed.


Lemma list_sum_cons (n : nat) (l : list nat) :
  list_sum (n :: l) = n + list_sum l.
Proof. reflexivity. Qed.

Lemma visit_each_length (F : str) (children : list stmt) :
  Forall (fun c => forall locations locations',
              visit F c locations = Some locations' ->
              length locations'
              = length locations + guarded_count F c) children ->
  forall locations locations',
    visit_each (visit F) children locations = Some locations' ->
    length locations'
    = length locations + list_sum (map (guarded_count F) children).
Proof.
  induction 1 as [|c r Hc Hr IH]; intros locations locations' H;
    cbn [visit_each map] in *.
  - inversion H. cbn [list_sum fold_right]. lia.
  - destruct (visit F c locations) as [l1|] eqn:E1; [|discriminate].
    fold (visit_each (visit F)) in H.
    rewrite list_sum_cons, (IH _ _ H), (Hc _ _ E1). lia.
Qed.

Lemma visit_length (F : str) (node : stmt) :
  forall locations locations',
    visit F node locations = Some locations' ->
    length locations' = length locations + guarded_count F node.
Proof.
  induction node as [l e test body orelse IHb IHo | l e | l e | l e ch IHc]
    using stmt_nested_ind; intros locations locations' H;
    cbn [visit guarded_count] in *.
  - destruct (visit_If_record F l e test body locations) as [l1|] eqn:E1;
      [|discriminate].
    destruct (visit_each (visit F) body l1) as [l2|] eqn:E2; [|discriminate].
    rewrite (@visit_each_length F orelse IHo _ _ H).
    rewrite (@visit_each_length F body IHb _ _ E2).
    rewrite (@visit_If_record_length F l e test body _ _ E1). lia.
  - inversion H. lia.
  - inversion H. lia.
  - exact (@visit_each_length F ch IHc _ _ H).
Qed.

Lemma list_sum_zero (l : list nat) :
  list_sum l = 0 -> Forall (fun n => n = 0) l.
Proof.
  induction l as [|n l IH]; intros H; constructor;
    rewrite list_sum_cons in H; [lia | apply IH; lia].
Qed.



Lemma collect_length (F : str) (tree : list stmt) (locations : list location) :
  collect F tree = Some locations ->
  length locations = list_sum (map (guarded_count F) tree).
Proof.
  unfold collect. intros H.
  assert (Hall : Forall (fun c => forall locations locations',
                             visit F c locations = Some locations' ->
                             length locations'
                             = length locations + guarded_count F c) tree).
  { apply Forall_forall. intros c _. apply visit_length. }
  rewrite (@visit_each_length F tree Hall _ _ H). reflexivity.
Qed.

(** The collector makes one record for every conditional whose guard
    checks the flag, wherever it stands in the tree: at the top, nested in
    another conditional, in an else clause or inside another statement. *)
Theorem collect_one_record_per_guard (F : str) (tree : list stmt)
    (locations : list location)
    (Hcollect : collect F tree = Some locations) :
  length locations = list_sum (map (guarded_count F) tree).
Proof. exact (@collect_length F tree locations Hcollect). Qed.

Lemma collect_one_record_per_guard_witness :
  length [KeepBody 0 3 1 3; KeepBody 1 3 2 3]
  = list_sum (map (guarded_count Samples.FOO) Samples.nested_tree).
Proof.
  apply (@collect_one_record_per_guard Samples.FOO Samples.nested_tree).
  reflexivity.
Defined.



(** ** The Source Rewriter *)

Lemma visit_each_app {A S : Type} (f : A -> S -> option S) (a b : list A)
    (s : S) :
  visit_each f (a ++ b) s
  = match visit_each f a s with
    | None => None
    | Some s' => visit_each f b s'
    end.
Proof.
  revert s; induction a as [|x a IH]; intros s; cbn [app visit_each];
    [reflexivity|].
  destruct (f x s) as [s'|]; [|reflexivity].
  fold (visit_each f). apply IH.
Qed.

Lemma len_app {A} (p x : list A) :
  PyList.len (p ++ x) = (PyList.len p + PyList.len x)%Z.
Proof. unfold PyList.len. rewrite length_app. lia. Qed.

Lemma len_nonneg {A} (l : list A) : (0 <= PyList.len l)%Z.
Proof. unfold PyList.len. lia. Qed.

(** A slice taken within the front part of a list does not see what
    follows it. *)
Lemma getslice_app_within {A} (p x : list A) (a b : Z) :
  (0 <= a <= b)%Z -> (b <= PyList.len p)%Z ->
  PyList.getslice (p ++ x) a b = PyList.getslice p a b.
Proof.
  intros Ha Hb. pose proof (len_nonneg x).
  rewrite !getslice_in_range by (rewrite ?len_app; lia).
  unfold PyList.len in Hb.
  rewrite skipn_app, firstn_app, length_skipn.
  replace (Z.to_nat a - length p) with 0 by lia.
  replace (Z.to_nat b - Z.to_nat a - (length p - Z.to_nat a)) with 0 by lia.
  cbn [skipn firstn]. rewrite app_nil_r. reflexivity.
Qed.

Lemma firstn_len_prefix {A} (l : list A) (e : Z) :
  (0 <= e <= PyList.len l)%Z ->
  PyList.len (firstn (Z.to_nat e) l) = e.
Proof. intros H. unfold PyList.len in *. rewrite length_firstn. lia. Qed.

(** A record applied to lines that were changed only from the end of its
    construct on acts as on the lines themselves. *)
Lemma apply_location_on_prefix (lines tail : list str) (loc : location) :
  in_lines lines loc ->
  apply_location loc (firstn (Z.to_nat (if_end loc)) lines ++ tail)
  = Some (firstn (Z.to_nat (if_start loc)) lines
          ++ replacement lines loc ++ tail).
Proof.
  intros [[Hs He] Hbody].
  set (e := if_end loc) in *. set (s := if_start loc) in *.
  pose proof (@firstn_len_prefix _ lines e ltac:(lia)) as Hlen.
  pose proof (len_nonneg tail) as Htail.
  assert (Hset : forall v,
             PyList.setslice (firstn (Z.to_nat e) lines ++ tail) s e v
             = firstn (Z.to_nat s) lines ++ v ++ tail).
  { intros v. rewrite setslice_in_range by (rewrite ?len_app; lia).
    rewrite firstn_app, firstn_firstn, skipn_app.
    unfold PyList.len in Hlen.
    replace (Nat.min (Z.to_nat s) (Z.to_nat e)) with (Z.to_nat s) by lia.
    replace (Z.to_nat s - length (firstn (Z.to_nat e) lines)) with 0 by lia.
    replace (Z.to_nat e - length (firstn (Z.to_nat e) lines)) with 0 by lia.
    rewrite (skipn_all2 (firstn (Z.to_nat e) lines)) by lia.
    cbn [firstn skipn app]. rewrite app_nil_r. reflexivity. }
  destruct loc as [s0 e0 ts te | s0 e0]; cbn [if_start if_end] in *;
    subst s e; cbn [apply_location replacement].
  - rewrite index_in_range by lia.
    assert (Hnth : nth_error (firstn (Z.to_nat e0) lines ++ tail) (Z.to_nat s0)
                   = Some (nth (Z.to_nat s0) lines [])).
    { unfold PyList.len in *.
      rewrite nth_error_app1 by (rewrite length_firstn; lia).
      rewrite nth_error_firstn.
      destruct (Nat.ltb_spec (Z.to_nat s0) (Z.to_nat e0)) as [_|Hge]; [|lia].
      apply nth_error_nth'. lia. }
    assert (Hg : PyList.getslice lines ts te
                 = PyList.getslice (firstn (Z.to_nat e0) lines) ts te).
    { rewrite <- (firstn_skipn (Z.to_nat e0) lines) at 1.
      apply getslice_app_within; lia. }
    rewrite Hnth, Hset.
    rewrite getslice_app_within by lia.
    rewrite <- Hg. reflexivity.
  - rewrite Hset. reflexivity.
Qed.

Lemma firstn_extend {A} (l : list A) (a b : Z) :
  (0 <= a <= b)%Z -> (b <= PyList.len l)%Z ->
  firstn (Z.to_nat b) l = firstn (Z.to_nat a) l ++ PyList.getslice l a b.
Proof.
  intros Ha Hb. rewrite getslice_in_range by assumption.
  pose proof (@segment_split _ l 0 (Z.to_nat a) (Z.to_nat b)
                ltac:(lia) ltac:(lia)) as H.
  rewrite !Nat.sub_0_r in H. cbn [skipn] in H. exact H.
Qed.

Lemma separate_from (lines : list str) (from : Z) (locations : list location) :
  separate lines from locations -> (0 <= from <= PyList.len lines)%Z.
Proof.
  destruct locations as [|loc rest]; cbn [separate]; [tauto|].
  intros [Hf [[[Hs He] _] _]]. lia.
Qed.

(** Over records whose constructs do not overlap the loop over
    [reversed(locations)] replaces each construct by what the record
    stands for on the original lines. *)
Lemma rewrite_separate (lines : list str) (locations : list location) :
  forall from,
    separate lines from locations ->
    rewrite locations lines
    = Some (firstn (Z.to_nat from) lines ++ spliced lines locations from).
Proof.
  unfold rewrite.
  induction locations as [|loc rest IH]; intros from Hsep.
  - cbn [rev visit_each spliced]. rewrite firstn_skipn. reflexivity.
  - cbn [separate] in Hsep. destruct Hsep as [Hfrom [Hin Hrest]].
    cbn [rev spliced]. rewrite visit_each_app, (IH _ Hrest).
    cbn [visit_each]. rewrite (apply_location_on_prefix _ Hin).
    destruct Hin as [[Hs He] _].
    rewrite (@firstn_extend _ lines from (if_start loc)) by lia.
    rewrite <- app_assoc. reflexivity.
Qed.

(** When the constructs of the records found in a file do not overlap,
    [clean_flag_usage] returns the original text with each construct
    replaced by the lines its record stands for, read off the original
    lines; the lines before, between and after the constructs are
    untouched. *)
Theorem clean_flag_usage_separate_records
    (parse : str -> option (list stmt)) (source F : str) (tree : list stmt)
    (loc : location) (rest : list location)
    (Hparse : parse source = Some tree)
    (Hcollect : collect F tree = Some (loc :: rest))
    (Hsep : separate (splitlines source) 0 (loc :: rest)) :
  rewrite (loc :: rest) (splitlines source)
  = Some (spliced (splitlines source) (loc :: rest) 0)
  /\ clean_flag_usage parse source F
     = (join (spliced (splitlines source) (loc :: rest) 0), true).
Proof.
  pose proof (@rewrite_separate (splitlines source) (loc :: rest) 0 Hsep) as E.
  cbn [Z.to_nat firstn app] in E.
  split; [exact E|].
  unfold clean_flag_usage. rewrite Hparse, Hcollect, E. reflexivity.
Qed.

Lemma clean_flag_usage_separate_records_witness :
  rewrite MoreSamples.two_guards_locations
          (splitlines MoreSamples.two_guards_src)
  = Some (spliced (splitlines MoreSamples.two_guards_src)
                  MoreSamples.two_guards_locations 0)
  /\ clean_flag_usage MoreSamples.parse MoreSamples.two_guards_src Samples.FOO
     = (join (spliced (splitlines MoreSamples.two_guards_src)
                      MoreSamples.two_guards_locations 0), true).
Proof.
  apply (@clean_flag_usage_separate_records MoreSamples.parse
           MoreSamples.two_guards_src Samples.FOO MoreSamples.two_guards_tree
           (RemoveBlock 0 2) [KeepBody 2 6 3 4]).
  - reflexivity.
  - reflexivity.
  - vm_compute. repeat split; discriminate.
Defined.

Example two_guards_rewritten :
  clean_flag_usage MoreSamples.parse MoreSamples.two_guards_src Samples.FOO
  = (join [Samples.ln "run()"; Samples.ln "done()"], true).
Proof. vm_compute. reflexivity. Qed.

(** ** The Flag Declaration Remover *)

Lemma level_after_cons (level : Z) (x : str) (ls : list str) :
  level_after level (x :: ls) = level_after (level + paren_balance x)%Z ls.
Proof. reflexivity. Qed.

(** The lookahead reads lines exactly as long as a parenthesis is left to
    close: it stops in front of the first line at which the running level
    is no longer positive, or at the end of the lines, and the text it
    gathers is the lines it read. *)
Theorem accumulate_stops_at_balance (rest : list str) (i : nat)
    (full_definition : str) (nested_level : Z) :
  exists n,
    n <= length rest
    /\ accumulate rest i full_definition nested_level
       = (i + n, full_definition ++ concat (firstn n rest))
    /\ (forall m, m < n ->
          (0 < level_after nested_level (firstn m rest))%Z)
    /\ (n < length rest ->
        (level_after nested_level (firstn n rest) <= 0)%Z).
Proof.
  revert i full_definition nested_level.
  induction rest as [|x r IH]; intros i full level.
  - exists 0. cbn [accumulate length firstn concat].
    rewrite app_nil_r, Nat.add_0_r. repeat split; intros; lia.
  - cbn [accumulate]. destruct (0 <? level)%Z eqn:E.
    + apply Z.ltb_lt in E.
      destruct (IH (S i) (full ++ x) (level + paren_balance x)%Z)
        as [n [Hn [Eacc [Hpos Hstop]]]].
      exists (S n). cbn [length firstn concat].
      rewrite Eacc, <- app_assoc, Nat.add_succ_r.
      split; [lia|]. split; [reflexivity|]. split.
      * intros [|m] Hm; [exact E|].
        cbn [firstn]. rewrite level_after_cons. apply Hpos. lia.
      * intros Hlt. rewrite level_after_cons. apply Hstop. lia.
    + apply Z.ltb_ge in E. exists 0.
      cbn [firstn concat]. rewrite app_nil_r, Nat.add_0_r.
      split; [lia|]. split; [reflexivity|]. split; [intros; lia|].
      intros _. exact E.
Qed.

Lemma collapse_head (s : str) :
  startswith [newline] (collapse_blank_runs s) = startswith [newline] s.
Proof.
  induction s as [|c rest IH]; [reflexivity|].
  cbn [collapse_blank_runs].
  destruct (Ascii.eqb c newline && startswith [newline; newline] rest) eqn:E;
    [|reflexivity].
  apply andb_true_iff in E as [Ec Er]. rewrite IH.
  apply Ascii.eqb_eq in Ec. subst c.
  cbn [startswith] in *. rewrite Ascii.eqb_refl.
  destruct rest as [|d rest']; [discriminate|].
  apply andb_true_iff in Er as [Ed _]. rewrite Ed. reflexivity.
Qed.

Lemma collapse_head2 (s : str) :
  startswith [newline; newline] (collapse_blank_runs s)
  = startswith [newline; newline] s.
Proof.
  induction s as [|c rest IH]; [reflexivity|].
  cbn [collapse_blank_runs].
  destruct (Ascii.eqb c newline && startswith [newline; newline] rest) eqn:E.
  - apply andb_true_iff in E as [Ec Er]. rewrite IH, Er.
    apply Ascii.eqb_eq in Ec. subst c.
    change (startswith [newline; newline] (newline :: rest))
      with (Ascii.eqb newline newline && startswith [newline] rest).
    rewrite Ascii.eqb_refl.
    destruct rest as [|d rest']; [discriminate|].
    cbn [startswith] in Er |- *.
    apply andb_true_iff in Er as [Ed _]. rewrite Ed. reflexivity.
  - change (startswith [newline; newline] (c :: collapse_blank_runs rest))
      with (Ascii.eqb newline c && startswith [newline] (collapse_blank_runs rest)).
    rewrite collapse_head. reflexivity.
Qed.

Lemma collapse_no_run (s : str) :
  contains three_newlines (collapse_blank_runs s) = false.
Proof.
  induction s as [|c rest IH]; [reflexivity|].
  cbn [collapse_blank_runs].
  destruct (Ascii.eqb c newline && startswith [newline; newline] rest) eqn:E;
    [exact IH|].
  cbn [contains]. rewrite IH, orb_false_r.
  change (startswith three_newlines (c :: collapse_blank_runs rest))
    with (Ascii.eqb newline c
          && startswith [newline; newline] (collapse_blank_runs rest)).
  rewrite collapse_head2, Ascii.eqb_sym. exact E.
Qed.

(** The text [remove_flag_definition] returns never holds three line
    feeds in a row, so its blank-run cleanup leaves that text as it is. *)
Theorem remove_flag_definition_no_blank_run (content F text : str)
    (modified : bool)
    (Hresult : remove_flag_definition content F = Some (text, modified)) :
  contains three_newlines text = false
  /\ collapse_blank_runs text = text.
Proof.
  unfold remove_flag_definition in Hresult.
  destruct (scan _ _ _ _ _ _) as [[out m]|]; [|discriminate].
  inversion Hresult; subst.
  split; [apply collapse_no_run|].
  apply collapse_blank_runs_id, collapse_no_run.
Qed.

Lemma remove_flag_definition_no_blank_run_witness :
  contains three_newlines
    (join [Samples.ln "a = 1"; Samples.ln ""; Samples.ln "b = 2"]) = false
  /\ collapse_blank_runs
       (join [Samples.ln "a = 1"; Samples.ln ""; Samples.ln "b = 2"])
     = join [Samples.ln "a = 1"; Samples.ln ""; Samples.ln "b = 2"].
Proof.
  apply (@remove_flag_definition_no_blank_run Samples.blank_run Samples.FOO
           (join [Samples.ln "a = 1"; Samples.ln ""; Samples.ln "b = 2"])
           false).
  vm_compute. reflexivity.
Defined.







Lemma splitlines_nonempty (s : str) :
  Forall (fun line => line <> []) (splitlines s).
Proof.
  assert (H : forall n (t : str), length t <= n ->
                Forall (fun line => line <> []) (splitlines t)).
  { induction n as [|n IH]; intros [|c rest] Hlen; try (constructor; fail);
      cbn [length] in Hlen; try lia.
    cbn [splitlines].
    destruct (is_linebreak c).
    - destruct rest as [|d rest']; [repeat constructor; discriminate|].
      destruct (Ascii.eqb c carriage_return && Ascii.eqb d newline);
        constructor; try discriminate; apply IH; cbn [length] in *; lia.
    - specialize (IH rest ltac:(lia)).
      destruct (splitlines rest) as [|l ls];
        [repeat constructor; discriminate|].
      inversion IH; subst. constructor; [discriminate | assumption]. }
  apply (H (length s)); lia.
Qed.

Lemma subseq_concat_length {A} (out l : list (list A)) :
  subseq out l -> Forall (fun x => x <> []) l ->
  length (concat out) <= length (concat l)
  /\ (length out < length l -> length (concat out) < length (concat l)).
Proof.
  induction 1 as [|x out l S IH|x out l S IH]; intros Hne.
  - split; [lia|]. cbn [length]. lia.
  - inversion Hne; subst. destruct (IH H2) as [Hle Hlt].
    cbn [concat length]. rewrite !length_app. split; [lia|].
    intros H. specialize (Hlt ltac:(lia)). lia.
  - inversion Hne; subst. destruct (IH H2) as [Hle _].
    cbn [concat]. rewrite length_app.
    assert (0 < length x) by (destruct x; [congruence | cbn [length]; lia]).
    split; intros; lia.
Qed.

Lemma collapse_length (s : str) :
  length (collapse_blank_runs s) <= length s.
Proof.
  induction s as [|c rest IH]; cbn [collapse_blank_runs length]; [lia|].
  destruct (Ascii.eqb c newline && startswith [newline; newline] rest);
    cbn [length]; lia.
Qed.

(** What a pass adds to the output is no longer than the lines it had
    left, and strictly shorter when it sets [modified]. *)
Lemma scan_drops (F : str) (lines : list str) :
  forall fuel i output_lines modified,
    length lines - i <= fuel ->
    exists out' modified',
      scan fuel F lines i output_lines modified
      = Some (output_lines ++ out', modified')
      /\ length out' <= length lines - i
      /\ (modified' = true ->
          modified = true \/ length out' < length lines - i).
Proof.
  induction fuel as [|fuel IH]; intros i out m Hfuel.
  - assert (Hnone : nth_error lines i = None) by (apply nth_error_None; lia).
    exists [], m. cbn [scan]. rewrite Hnone, app_nil_r.
    split; [reflexivity|]. cbn [length]. split; [lia | tauto].
  - cbn [scan]. destruct (nth_error lines i) as [line|] eqn:Hnth.
    2:{ exists [], m. rewrite app_nil_r. split; [reflexivity|].
        cbn [length]. split; [lia | tauto]. }
    assert (Hi : i < length lines) by (apply nth_error_Some; congruence).
    assert (Hkeep : forall j, i + 1 <= j ->
               exists out' modified',
                 scan fuel F lines j (out ++ [line]) m
                 = Some (out ++ out', modified')
                 /\ length out' <= length lines - i
                 /\ (modified' = true ->
                     m = true \/ length out' < length lines - i)).
    { intros j Hj.
      destruct (IH j (out ++ [line]) m ltac:(lia)) as [o [m' [E [Hl Hm]]]].
      exists (line :: o), m'. rewrite E, <- app_assoc.
      split; [reflexivity|]. cbn [length]. split; [lia|].
      intros Ht. destruct (Hm Ht); [left; assumption | right; lia]. }
    assert (Hdrop : forall j, i + 1 <= j ->
               exists out' modified',
                 scan fuel F lines j out true = Some (out ++ out', modified')
                 /\ length out' <= length lines - i
                 /\ (modified' = true ->
                     m = true \/ length out' < length lines - i)).
    { intros j Hj.
      destruct (IH j out true ltac:(lia)) as [o [m' [E [Hl _]]]].
      exists o, m'. split; [exact E|]. split; [lia|]. intros _. right. lia. }
    destruct (negb (truthy (strip line))); [apply Hkeep; lia|].
    destruct (contains F line); [|apply Hkeep; lia].
    destruct (search_flag_pattern F line); [apply Hdrop; lia|].
    destruct (contains [equals_sign] line && contains constructor_open line);
      [|apply Hkeep; lia].
    pose proof (accumulate_index (skipn (i + 1) lines) (i + 1) line
                  (paren_balance line)) as [Hlo _].
    destruct (accumulate (skipn (i + 1) lines) (i + 1) line
                (paren_balance line)) as [i' full].
    cbn [fst] in Hlo.
    destruct (search_flag_pattern F (remove_char newline full));
      [apply Hdrop; exact Hlo|].
    replace (i' - 1 + 1) with i' by lia. apply Hkeep. exact Hlo.
Qed.

(** A modification reported by [remove_flag_definition] is a real one:
    the text it returns is strictly shorter than the input. *)
Theorem remove_flag_definition_modified_shorter (content F text : str)
    (Hresult : remove_flag_definition content F = Some (text, true)) :
  length text < length content.
Proof.
  unfold remove_flag_definition in Hresult.
  destruct (@scan_selects F (splitlines content) (length (splitlines content))
              0 [] false ltac:(lia)) as [out [m [E S]]].
  destruct (@scan_drops F (splitlines content) (length (splitlines content))
              0 [] false ltac:(lia)) as [out2 [m2 [E2 [_ Hm]]]].
  rewrite E in E2. inversion E2; subst out2 m2. clear E2.
  rewrite E in Hresult. cbn [app] in Hresult. inversion Hresult; subst.
  destruct (Hm eq_refl) as [Hf|Hlt]; [discriminate|].
  cbn [skipn] in S. rewrite Nat.sub_0_r in Hlt.
  destruct (subseq_concat_length S (splitlines_nonempty content)) as [_ Hc].
  specialize (Hc Hlt).
  pose proof (collapse_length (join out)) as Hcl.
  assert (Hj : length content = length (concat (splitlines content))).
  { rewrite <- (join_splitlines content) at 1. reflexivity. }
  unfold join in *. lia.
Qed.

Lemma remove_flag_definition_modified_shorter_witness :
  length (join [Samples.ln "class Flags:";
                Samples.ln "    BAR = FeatureFlag(default=True)"])
  < length Samples.single_line_decl.
Proof.
  apply (@remove_flag_definition_modified_shorter Samples.single_line_decl
           Samples.FOO).
  vm_compute. reflexivity.
Defined.


(** ** The File Processor *)

Lemma process_file_plain (parse : str -> option (list stmt)) (source F : str) :
  process_file parse false source F = Some (clean_flag_usage parse source F).
Proof.
  unfold process_file. cbn [negb orb].
  destruct (clean_flag_usage parse source F) as [cleaned wm] eqn:E.
  destruct wm; [reflexivity|].
  rewrite (clean_flag_usage_unmodified _ _ _ E). reflexivity.
Qed.

Lemma process_file_returns (parse : str -> option (list stmt))
    (is_declarations_file : bool) (source F : str) :
  exists text modified,
    process_file parse is_declarations_file source F = Some (text, modified)
    /\ (modified = false -> text = source).
Proof.
  unfold process_file. destruct is_declarations_file.
  - destruct (remove_flag_definition_total source F) as [t [m E]].
    rewrite E. destruct m; cbn [negb orb].
    + destruct (clean_flag_usage parse t F) as [c wm].
      exists c, true. split; [reflexivity | discriminate].
    + destruct (clean_flag_usage parse source F) as [c wm].
      destruct wm; eexists; eexists; (split; [reflexivity|]);
        [discriminate | reflexivity].
  - cbn [negb orb]. destruct (clean_flag_usage parse source F) as [c wm].
    destruct wm; eexists; eexists; (split; [reflexivity|]);
      [discriminate | reflexivity].
Qed.

(** How the File Processor combines its two steps.  On a file that is no
    declarations file it returns what [clean_flag_usage] returns.  On a
    declarations file from which no declaration was deleted it does the
    same, on the original text: what [remove_flag_definition] returned,
    blank runs collapsed or not, is dropped.  When a declaration was
    deleted the usage cleanup runs on the text without it and a
    modification is reported in any case. *)
Theorem process_file_composition (parse : str -> option (list stmt))
    (source F : str) :
  process_file parse false source F = Some (clean_flag_usage parse source F)
  /\ (forall text,
        remove_flag_definition source F = Some (text, false) ->
        process_file parse true source F
        = Some (clean_flag_usage parse source F))
  /\ (forall text,
        remove_flag_definition source F = Some (text, true) ->
        process_file parse true source F
        = Some (fst (clean_flag_usage parse text F), true)).
Proof.
  split; [apply process_file_plain|]. split; intros text E.
  - rewrite <- process_file_plain. unfold process_file. rewrite E.
    reflexivity.
  - unfold process_file. rewrite E. cbn [negb orb].
    destruct (clean_flag_usage parse text F) as [c wm]. reflexivity.
Qed.

(** The blank lines of a declarations file that holds no declaration of
    the flag stay; a declaration that is deleted takes effect. *)
Lemma process_file_composition_witness :
  process_file Samples.parse true Samples.blank_run Samples.FOO
  = Some (Samples.blank_run, false)
  /\ process_file Samples.parse true Samples.single_line_decl Samples.FOO
     = Some (join [Samples.ln "class Flags:";
                   Samples.ln "    BAR = FeatureFlag(default=True)"], true).
Proof.
  split.
  - apply (proj1 (proj2 (process_file_composition Samples.parse
                           Samples.blank_run Samples.FOO))
             (join [Samples.ln "a = 1"; Samples.ln ""; Samples.ln "b = 2"])).
    vm_compute. reflexivity.
  - apply (proj2 (proj2 (process_file_composition Samples.parse
                           Samples.single_line_decl Samples.FOO))
             (join [Samples.ln "class Flags:";
                    Samples.ln "    BAR = FeatureFlag(default=True)"])).
    vm_compute. reflexivity.
Defined.

Lemma write_same (fs : filesystem) (path content : str) :
  write fs path content path = Some content.
Proof. unfold write. rewrite str_eqb_refl. reflexivity. Qed.

Lemma write_other (fs : filesystem) (path content q : str) :
  q <> path -> write fs path content q = fs q.
Proof.
  intros H. unfold write. apply str_eqb_neq in H. rewrite H. reflexivity.
Qed.

Lemma backup_path_differs (path : str) : path ++ backup_suffix <> path.
Proof.
  intros H. apply (f_equal (@length ascii)) in H.
  rewrite length_app in H. cbn in H. lia.
Qed.

(** A file reported as modified is written, and with backups on its old
    content is kept under the path with [.bak] added; no other path is
    touched. *)
Lemma process_file_at_modified (parse : str -> option (list stmt))
    (fs fs' : filesystem) (file_path F : str) (create_backup : bool) :
  process_file_at parse fs file_path F create_backup = Some (fs', true) ->
  exists source cleaned,
    fs file_path = Some source
    /\ process_file parse (is_declarations_path file_path) source F
       = Some (cleaned, true)
    /\ fs' file_path = Some cleaned
    /\ (create_backup = true ->
        fs' (file_path ++ backup_suffix) = Some source)
    /\ forall q, q <> file_path -> q <> file_path ++ backup_suffix ->
                 fs' q = fs q.
Proof.
  unfold process_file_at.
  destruct (fs file_path) as [source|] eqn:Eread; [|discriminate].
  destruct (process_file parse (is_declarations_path file_path) source F)
    as [[cleaned [|]]|] eqn:Erun; try discriminate.
  intros H. inversion H; subst. clear H.
  exists source, cleaned. split; [reflexivity|]. split; [exact Erun|].
  split; [apply write_same|]. split.
  - intros ->. rewrite write_other by apply backup_path_differs.
    apply write_same.
  - intros q H1 H2. rewrite write_other by exact H1.
    destruct create_backup; [apply write_other; exact H2 | reflexivity].
Qed.

Lemma process_file_at_unmodified (parse : str -> option (list stmt))
    (fs fs' : filesystem) (file_path F : str) (create_backup : bool) :
  process_file_at parse fs file_path F create_backup = Some (fs', false) ->
  fs' = fs.
Proof.
  unfold process_file_at.
  destruct (fs file_path) as [source|];
    [|intros H; inversion H; reflexivity].
  destruct (process_file parse (is_declarations_path file_path) source F)
    as [[cleaned [|]]|]; try discriminate.
  intros H; inversion H; reflexivity.
Qed.

Lemma process_file_at_returns (parse : str -> option (list stmt))
    (fs : filesystem) (file_path F : str) (create_backup : bool) :
  exists fs' modified,
    process_file_at parse fs file_path F create_backup = Some (fs', modified).
Proof.
  unfold process_file_at. destruct (fs file_path) as [source|]; [|eauto].
  destruct (process_file_returns parse (is_declarations_path file_path)
              source F) as [t [m [E _]]].
  rewrite E. destruct m; eauto.
Qed.



(** ** The Directory Processor *)

Lemma process_paths_counts (parse : str -> option (list stmt)) (F : str)
    (create_backup : bool) (paths : list str) :
  forall fs total modified,
    exists fs' modified',
      process_paths parse paths F create_backup fs total modified
      = Some (fs', ((total + Z.of_nat (length paths))%Z, modified'))
      /\ (modified <= modified' <= modified + Z.of_nat (length paths))%Z
      /\ forall q,
           (forall p, In p paths -> q <> p /\ q <> p ++ backup_suffix) ->
           fs' q = fs q.
Proof.
  induction paths as [|p rest IH]; intros fs total modified.
  - exists fs, modified. cbn [process_paths length Z.of_nat].
    rewrite Z.add_0_r. split; [reflexivity|]. split; [lia | reflexivity].
  - cbn [process_paths].
    destruct (process_file_at_returns parse fs p F create_backup)
      as [fs1 [m1 E1]].
    rewrite E1.
    destruct (IH fs1 (total + 1)%Z
                (if m1 then (modified + 1)%Z else modified))
      as [fs' [m' [E [Hm Hframe]]]].
    exists fs', m'. rewrite E. split.
    + cbn [length]. do 3 f_equal. lia.
    + split; [cbn [length]; destruct m1; lia|].
      intros q Hq. rewrite Hframe by (intros p' Hp'; apply Hq; right; exact Hp').
      destruct (Hq p (or_introl eq_refl)) as [Hq1 Hq2].
      destruct m1.
      * destruct (process_file_at_modified _ _ _ _ _ E1)
          as [_ [_ [_ [_ [_ [_ H5]]]]]].
        apply H5; assumption.
      * rewrite (process_file_at_unmodified _ _ _ _ _ E1). reflexivity.
Qed.

(** [process_directory] always returns; it counts every path it was given
    once, never reports more modified files than that, and touches no path
    other than the ones it was given and their backups. *)
Theorem process_directory_counts (parse : str -> option (list stmt))
    (paths : list str) (F : str) (create_backup : bool) (fs : filesystem) :
  exists fs' modified_files,
    process_directory parse paths F create_backup fs
    = Some (fs', (Z.of_nat (length paths), modified_files))
    /\ (0 <= modified_files <= Z.of_nat (length paths))%Z
    /\ forall q,
         (forall p, In p paths -> q <> p /\ q <> p ++ backup_suffix) ->
         fs' q = fs q.
Proof.
  destruct (process_paths_counts parse F create_backup paths fs 0 0)
    as [fs' [m' [E [Hm Hframe]]]].
  exists fs', m'. unfold process_directory. rewrite E.
  split; [reflexivity|]. split; [lia | exact Hframe].
Qed.

(** A declarations file, a module that uses the flag and a path that is
    gone: three files counted, two modified. *)
Example process_directory_sample :
  exists fs',
    process_directory MoreSamples.parse
      [MoreSamples.flags_path; MoreSamples.missing_path;
       MoreSamples.module_path]
      Samples.FOO true MoreSamples.files
    = Some (fs', (3, 2)%Z)
    /\ fs' MoreSamples.module_path
       = Some (join [Samples.ln "run()"; Samples.ln "done()"])
    /\ fs' (MoreSamples.flags_path ++ backup_suffix)
       = Some Samples.single_line_decl.
Proof.
  eexists. split; [vm_compute; reflexivity|].
  split; vm_compute; reflexivity.
Qed.
